(** * npyscreen: the managed application (form navigation controller)

    A shallow embedding of [npyscreen/apNPSApplicationManaged.py]
    (class [NPSAppManaged]) and of [npyscreen/selectone.py]
    (class [SelectOne]), with the properties of the navigation
    controller proved over it.

    Python objects live on a heap and are named by their address, so
    that two references to one form alias (the registry, [_THIS_FORM]
    and the widget that is being edited see the same object).  A
    method is a computation in a state monad whose failures are the
    Python exceptions; a raised exception keeps the state as it was
    mutated up to the [raise], which is what Python does. *)

From Stdlib Require Import ZArith.
From stdpp Require Import gmap strings list.

Local Open Scope Z_scope.
Local Open Scope nat_scope.

(** ** Python values, exceptions and list primitives *)

(** The values that forms, widgets and constructor arguments carry. *)
#[warnings="-register-all"]
Inductive pyvalue : Type :=
| VNone
| VBool (b : bool)
| VInt (z : Z)
| VStr (s : string)
| VTuple (items : list pyvalue)
| VList (items : list pyvalue).

(** [hasattr(v, "append")]: of the values above only a list has it. *)
Definition has_append (v : pyvalue) : bool :=
  match v with
  | VList _ => true
  | _ => false
  end.

Inductive exn : Type :=
| AttributeError
| IndexError
| KeyError
| TypeError
| ReferenceError            (* an address with no object behind it *)
| Exception (name : string) (* any other exception, raised by user code *).

Definition is_TypeError (e : exn) : bool :=
  match e with TypeError => true | _ => false end.

Definition is_IndexError (e : exn) : bool :=
  match e with IndexError => true | _ => false end.

Definition is_AttributeError_or_IndexError (e : exn) : bool :=
  match e with AttributeError | IndexError => true | _ => false end.

(** [l[i]] with Python's negative indices; [None] stands for IndexError. *)
Definition py_index {A} (l : list A) (i : Z) : option nat :=
  if (0 <=? i)%Z then
    (if (i <? Z.of_nat (length l))%Z then Some (Z.to_nat i) else None)
  else
    (if (0 <=? Z.of_nat (length l) + i)%Z
     then Some (Z.to_nat (Z.of_nat (length l) + i)) else None).

(** ** Widgets and forms *)

(** A widget as the controller sees it: its [editing] attribute (absent
    until somebody assigns it) and, for a titled composite, the nested
    [entry_widget]. *)
#[warnings="-register-all"]
Inductive widget : Type :=
  Widget { w_editing : option bool; entry_widget : option widget }.

(** [w.editing = False] *)
Definition widget_stop_editing (w : widget) : widget :=
  {| w_editing := Some false; entry_widget := entry_widget w |}.

(** [w.entry_widget.editing = False], for a widget that has the attribute *)
Definition widget_stop_entry_editing (w : widget) : option widget :=
  match entry_widget w with
  | Some e => Some {| w_editing := w_editing w;
                      entry_widget := Some (widget_stop_editing e) |}
  | None => None
  end.

(** A form object.  An [option] attribute is one that may be absent
    ([hasattr] false, reading it raises AttributeError); the three
    [has_*] flags say whether the optional methods are defined. *)
Record form : Type := Form {
  FORM_NAME : option string;
  parentApp : bool;                  (* the attribute exists *)
  editing : option bool;
  editw : option Z;
  _widgets__ : option (list widget);
  has_activate : bool;
  has_before_editing : bool;
  has_after_editing : bool;
  contents : pyvalue                 (* whatever else the form holds *)
}.

Abbreviation addr := nat (only parsing).

(** What calling a form class does: an instance, or an exception. *)
Inductive ctor_result : Type :=
| Built (f : form)
| CtorRaises (e : exn).

Definition form_class : Type :=
  list pyvalue -> list (string * pyvalue) -> ctor_result.

(** A value of the [_Forms] dictionary, and of [_THIS_FORM]: a
    reference to a form object ([register_form], [add_form]: the
    persistent instance) or the three-element list
    [[form_class, args, keywords]] stored by [add_form_class] (the
    deferred entry). *)
Inductive pyobj : Type :=
| FormRef (a : addr)
| ClassEntry (cls : form_class) (args : list pyvalue)
             (keywords : list (string * pyvalue)).

(** The hooks and form methods the controller calls, in call order. *)
Inductive event : Type :=
| ev_on_start
| ev_on_in_main_loop
| ev_on_clean_exit
| ev_resize (a : addr)
| ev_activate (a : addr)
| ev_before_editing (a : addr)
| ev_edit (a : addr)
| ev_after_editing (a : addr).

(** ** The application object *)

(** An identifier as held by [NEXT_ACTIVE_FORM]: Python's [None] or a
    string. *)
Definition ident := option string.

Definition STARTING_FORM : string := "MAIN".

Record app : Type := App {
  _FORM_VISIT_LIST : list string;          (* oldest first *)
  NEXT_ACTIVE_FORM : ident;
  _LAST_NEXT_ACTIVE_FORM : option pyobj;
  _Forms : gmap string pyobj;
  LAST_ACTIVE_FORM_NAME : ident;
  _THIS_FORM : option pyobj;
  ACTIVE_FORM_NAME : ident;
  heap : list form;                        (* the form objects, by address *)
  trace : list event                       (* calls made so far *)
}.

(** [NPSAppManaged.__init__] *)
Definition init : app :=
  {| _FORM_VISIT_LIST := [];
     NEXT_ACTIVE_FORM := Some STARTING_FORM;
     _LAST_NEXT_ACTIVE_FORM := None;
     _Forms := ∅;
     LAST_ACTIVE_FORM_NAME := None;
     _THIS_FORM := None;
     ACTIVE_FORM_NAME := None;
     heap := [];
     trace := [] |}.

Definition set_FORM_VISIT_LIST (h : list string) (s : app) : app :=
  {| _FORM_VISIT_LIST := h;
     NEXT_ACTIVE_FORM := NEXT_ACTIVE_FORM s;
     _LAST_NEXT_ACTIVE_FORM := _LAST_NEXT_ACTIVE_FORM s;
     _Forms := _Forms s;
     LAST_ACTIVE_FORM_NAME := LAST_ACTIVE_FORM_NAME s;
     _THIS_FORM := _THIS_FORM s;
     ACTIVE_FORM_NAME := ACTIVE_FORM_NAME s;
     heap := heap s;
     trace := trace s |}.

Definition set_NEXT_ACTIVE_FORM (n : ident) (s : app) : app :=
  {| _FORM_VISIT_LIST := _FORM_VISIT_LIST s;
     NEXT_ACTIVE_FORM := n;
     _LAST_NEXT_ACTIVE_FORM := _LAST_NEXT_ACTIVE_FORM s;
     _Forms := _Forms s;
     LAST_ACTIVE_FORM_NAME := LAST_ACTIVE_FORM_NAME s;
     _THIS_FORM := _THIS_FORM s;
     ACTIVE_FORM_NAME := ACTIVE_FORM_NAME s;
     heap := heap s;
     trace := trace s |}.

Definition set_LAST_NEXT_ACTIVE_FORM (o : option pyobj) (s : app) : app :=
  {| _FORM_VISIT_LIST := _FORM_VISIT_LIST s;
     NEXT_ACTIVE_FORM := NEXT_ACTIVE_FORM s;
     _LAST_NEXT_ACTIVE_FORM := o;
     _Forms := _Forms s;
     LAST_ACTIVE_FORM_NAME := LAST_ACTIVE_FORM_NAME s;
     _THIS_FORM := _THIS_FORM s;
     ACTIVE_FORM_NAME := ACTIVE_FORM_NAME s;
     heap := heap s;
     trace := trace s |}.

Definition set_Forms (m : gmap string pyobj) (s : app) : app :=
  {| _FORM_VISIT_LIST := _FORM_VISIT_LIST s;
     NEXT_ACTIVE_FORM := NEXT_ACTIVE_FORM s;
     _LAST_NEXT_ACTIVE_FORM := _LAST_NEXT_ACTIVE_FORM s;
     _Forms := m;
     LAST_ACTIVE_FORM_NAME := LAST_ACTIVE_FORM_NAME s;
     _THIS_FORM := _THIS_FORM s;
     ACTIVE_FORM_NAME := ACTIVE_FORM_NAME s;
     heap := heap s;
     trace := trace s |}.

Definition set_LAST_ACTIVE_FORM_NAME (n : ident) (s : app) : app :=
  {| _FORM_VISIT_LIST := _FORM_VISIT_LIST s;
     NEXT_ACTIVE_FORM := NEXT_ACTIVE_FORM s;
     _LAST_NEXT_ACTIVE_FORM := _LAST_NEXT_ACTIVE_FORM s;
     _Forms := _Forms s;
     LAST_ACTIVE_FORM_NAME := n;
     _THIS_FORM := _THIS_FORM s;
     ACTIVE_FORM_NAME := ACTIVE_FORM_NAME s;
     heap := heap s;
     trace := trace s |}.

Definition set_THIS_FORM (o : option pyobj) (s : app) : app :=
  {| _FORM_VISIT_LIST := _FORM_VISIT_LIST s;
     NEXT_ACTIVE_FORM := NEXT_ACTIVE_FORM s;
     _LAST_NEXT_ACTIVE_FORM := _LAST_NEXT_ACTIVE_FORM s;
     _Forms := _Forms s;
     LAST_ACTIVE_FORM_NAME := LAST_ACTIVE_FORM_NAME s;
     _THIS_FORM := o;
     ACTIVE_FORM_NAME := ACTIVE_FORM_NAME s;
     heap := heap s;
     trace := trace s |}.

Definition set_ACTIVE_FORM_NAME (n : ident) (s : app) : app :=
  {| _FORM_VISIT_LIST := _FORM_VISIT_LIST s;
     NEXT_ACTIVE_FORM := NEXT_ACTIVE_FORM s;
     _LAST_NEXT_ACTIVE_FORM := _LAST_NEXT_ACTIVE_FORM s;
     _Forms := _Forms s;
     LAST_ACTIVE_FORM_NAME := LAST_ACTIVE_FORM_NAME s;
     _THIS_FORM := _THIS_FORM s;
     ACTIVE_FORM_NAME := n;
     heap := heap s;
     trace := trace s |}.

Definition set_heap (h : list form) (s : app) : app :=
  {| _FORM_VISIT_LIST := _FORM_VISIT_LIST s;
     NEXT_ACTIVE_FORM := NEXT_ACTIVE_FORM s;
     _LAST_NEXT_ACTIVE_FORM := _LAST_NEXT_ACTIVE_FORM s;
     _Forms := _Forms s;
     LAST_ACTIVE_FORM_NAME := LAST_ACTIVE_FORM_NAME s;
     _THIS_FORM := _THIS_FORM s;
     ACTIVE_FORM_NAME := ACTIVE_FORM_NAME s;
     heap := h;
     trace := trace s |}.

Definition set_trace (t : list event) (s : app) : app :=
  {| _FORM_VISIT_LIST := _FORM_VISIT_LIST s;
     NEXT_ACTIVE_FORM := NEXT_ACTIVE_FORM s;
     _LAST_NEXT_ACTIVE_FORM := _LAST_NEXT_ACTIVE_FORM s;
     _Forms := _Forms s;
     LAST_ACTIVE_FORM_NAME := LAST_ACTIVE_FORM_NAME s;
     _THIS_FORM := _THIS_FORM s;
     ACTIVE_FORM_NAME := ACTIVE_FORM_NAME s;
     heap := heap s;
     trace := t |}.

(** ** The monad of methods *)

Inductive outcome (A : Type) : Type :=
| Ret (a : A)
| Raise (e : exn).
Arguments Ret {A} a.
Arguments Raise {A} e.

Definition M (A : Type) : Type := app -> outcome A * app.

Definition ret {A} (a : A) : M A := fun s => (Ret a, s).
Definition raise {A} (e : exn) : M A := fun s => (Raise e, s).
Definition bind {A B} (c : M A) (k : A -> M B) : M B :=
  fun s => match c s with
           | (Ret a, s') => k a s'
           | (Raise e, s') => (Raise e, s')
           end.
Definition get {A} (proj : app -> A) : M A := fun s => (Ret (proj s), s).
Definition modify (f : app -> app) : M unit := fun s => (Ret tt, f s).

(** [try: c  except <handles>: h] *)
Definition try_except {A} (c : M A) (handles : exn -> bool) (h : M A) : M A :=
  fun s => match c s with
           | (Raise e, s') => if handles e then h s' else (Raise e, s')
           | r => r
           end.

Notation "'let!' x ':=' c 'in' k" := (bind c (fun x => k))
  (at level 10, x pattern, c at level 100, k at level 200).
Notation "c ';;' k" := (bind c (fun _ => k))
  (at level 100, k at level 200, right associativity).

Definition from_option {A} (e : exn) (o : option A) : M A :=
  match o with
  | Some a => ret a
  | None => raise e
  end.

Definition log (e : event) : M unit :=
  modify (fun s => set_trace (trace s ++ [e]) s).

(** ** Objects on the heap *)

(** Dereference a form object. *)
Definition deref (a : addr) : M form :=
  let! h := get heap in from_option ReferenceError (h !! a).

Definition store (a : addr) (f : form) : M unit :=
  modify (fun s => set_heap (<[a:=f]> (heap s)) s).

(** A new object: its address is the next free one. *)
Definition alloc (f : form) : M addr :=
  let! h := get heap in
  modify (fun s => set_heap (heap s ++ [f]) s) ;;
  ret (length h).

(** [form_class(parent_app=self, *args, **keywords)] *)
Definition construct (cls : form_class) (args : list pyvalue)
    (keywords : list (string * pyvalue)) : M addr :=
  match cls args keywords with
  | Built f => alloc f
  | CtorRaises e => raise e
  end.

(** The form object behind a reference; a list has none of the form
    attributes, so using it as a form raises AttributeError. *)
Definition as_form (o : option pyobj) : M addr :=
  match o with
  | Some (FormRef a) => ret a
  | Some (ClassEntry _ _ _) => raise AttributeError
  | None => raise AttributeError
  end.

Definition set_parentApp (b : bool) (f : form) : form :=
  {| FORM_NAME := FORM_NAME f; parentApp := b; editing := editing f;
     editw := editw f; _widgets__ := _widgets__ f;
     has_activate := has_activate f;
     has_before_editing := has_before_editing f;
     has_after_editing := has_after_editing f; contents := contents f |}.

Definition set_FORM_NAME (n : option string) (f : form) : form :=
  {| FORM_NAME := n; parentApp := parentApp f; editing := editing f;
     editw := editw f; _widgets__ := _widgets__ f;
     has_activate := has_activate f;
     has_before_editing := has_before_editing f;
     has_after_editing := has_after_editing f; contents := contents f |}.

Definition set_editing (b : option bool) (f : form) : form :=
  {| FORM_NAME := FORM_NAME f; parentApp := parentApp f; editing := b;
     editw := editw f; _widgets__ := _widgets__ f;
     has_activate := has_activate f;
     has_before_editing := has_before_editing f;
     has_after_editing := has_after_editing f; contents := contents f |}.

Definition set_widgets (ws : option (list widget)) (f : form) : form :=
  {| FORM_NAME := FORM_NAME f; parentApp := parentApp f; editing := editing f;
     editw := editw f; _widgets__ := ws;
     has_activate := has_activate f;
     has_before_editing := has_before_editing f;
     has_after_editing := has_after_editing f; contents := contents f |}.

(** ** The registry: [_Forms] *)

(** [self._Forms[name]]; a missing key raises KeyError. *)
Definition Forms_getitem (name : string) : M pyobj :=
  let! m := get _Forms in from_option KeyError (m !! name).

Definition add_form_class (form_id : string) (cls : form_class)
    (args : list pyvalue) (keywords : list (string * pyvalue)) : M unit :=
  modify (fun s => set_Forms (<[form_id := ClassEntry cls args keywords]> (_Forms s)) s).

Definition register_form (form_id : string) (a : addr) : M unit :=
  let! f := deref a in
  store a (set_parentApp true f) ;;
  modify (fun s => set_Forms (<[form_id := FormRef a]> (_Forms s)) s).

Definition add_form (form_id : string) (cls : form_class)
    (args : list pyvalue) (keywords : list (string * pyvalue)) : M addr :=
  let! a := construct cls args keywords in
  register_form form_id a ;;
  ret a.

Definition remove_form (form_id : string) : M unit :=
  (* del self._Forms[form_id].parentApp *)
  (let! o := Forms_getitem form_id in
   let! a := as_form (Some o) in
   let! f := deref a in
   if parentApp f then store a (set_parentApp false f)
   else raise AttributeError) ;;
  (* del self._Forms[form_id] *)
  (let! _ := Forms_getitem form_id in
   modify (fun s => set_Forms (delete form_id (_Forms s)) s)).

(** [weakref.proxy(f)]: a list cannot be weakly referenced. *)
Definition get_form (name : string) : M addr :=
  let! o := Forms_getitem name in
  match o with
  | FormRef a => ret a
  | ClassEntry _ _ _ => raise TypeError
  end.

(** ** Navigation *)

Definition set_next_form (form_id : ident) : M unit :=
  modify (set_NEXT_ACTIVE_FORM form_id).

(** [self._THIS_FORM.editing = False] *)
Definition this_form_stop_editing : M unit :=
  let! t := get _THIS_FORM in
  let! a := as_form t in
  let! f := deref a in
  store a (set_editing (Some false) f).

(** [self._THIS_FORM._widgets__[self._THIS_FORM.editw]]: the form, its
    widget list, the position the index denotes and the widget there. *)
Definition focused_widget : M (addr * form * list widget * nat * widget) :=
  let! t := get _THIS_FORM in
  let! a := as_form t in
  let! f := deref a in
  let! ws := from_option AttributeError (_widgets__ f) in
  let! i := from_option AttributeError (editw f) in
  let! n := from_option IndexError (py_index ws i) in
  let! w := from_option IndexError (ws !! n) in
  ret (a, f, ws, n, w).

Definition switch_form_now : M unit :=
  this_form_stop_editing ;;
  try_except
    (let! (a, f, ws, n, w) := focused_widget in
     store a (set_widgets (Some (<[n := widget_stop_editing w]> ws)) f))
    is_AttributeError_or_IndexError
    (ret tt) ;;
  (* Following is necessary to stop two key presses being needed for
     title fields *)
  try_except
    (let! (a, f, ws, n, w) := focused_widget in
     let! w' := from_option AttributeError (widget_stop_entry_editing w) in
     store a (set_widgets (Some (<[n := w']> ws)) f))
    is_AttributeError_or_IndexError
    (ret tt).

Definition switch_form (form_id : ident) : M unit :=
  this_form_stop_editing ;;
  set_next_form form_id ;;
  switch_form_now.

(** [self._FORM_VISIT_LIST.pop()] *)
Definition history_pop : M string :=
  let! h := get _FORM_VISIT_LIST in
  let! x := from_option IndexError (last h) in
  modify (fun s => set_FORM_VISIT_LIST (removelast (_FORM_VISIT_LIST s)) s) ;;
  ret x.

Definition remove_last_form_from_history : M unit :=
  let! _ := history_pop in
  let! _ := history_pop in
  ret tt.

(** [self._THIS_FORM.FORM_NAME] *)
Definition this_form_name : M string :=
  let! t := get _THIS_FORM in
  let! a := as_form t in
  let! f := deref a in
  from_option AttributeError (FORM_NAME f).

Definition set_next_form_previous (backup : ident) : M unit :=
  try_except
    (let! name := this_form_name in
     let! h := get _FORM_VISIT_LIST in
     let! top := from_option IndexError (last h) in
     (if bool_decide (name = top)
      then (let! _ := history_pop in ret tt)
      else ret tt) ;;
     let! name := this_form_name in
     let! next := get NEXT_ACTIVE_FORM in
     if bool_decide (Some name = next)
     then (let! prev := history_pop in set_next_form (Some prev))
     else ret tt)
    is_IndexError
    (set_next_form backup).

Definition switch_form_previous : M unit :=
  set_next_form_previous (Some STARTING_FORM) ;;
  switch_form_now.

Definition get_history : M (list string) := get _FORM_VISIT_LIST.

Definition reset_history : M unit := modify (set_FORM_VISIT_LIST []).

(** ** What a screen does while it is active *)

(** The calls a form makes back into the application during one
    activation (from [activate], [edit] or the editing hooks, for
    instance from a key handler), and changes to its own attributes.
    Forms read the list that [get_history] returns; they do not write
    to it. *)
Inductive call : Type :=
| c_set_next_form (form_id : ident)
| c_switch_form (form_id : ident)
| c_switch_form_now
| c_switch_form_previous
| c_set_next_form_previous (backup : ident)
| c_remove_last_form_from_history
| c_reset_history
| c_add_form (form_id : string) (cls : form_class) (args : list pyvalue)
             (keywords : list (string * pyvalue))
| c_add_form_class (form_id : string) (cls : form_class) (args : list pyvalue)
                   (keywords : list (string * pyvalue))
| c_remove_form (form_id : string)
| c_update_self (g : form -> form).

Definition do_call (c : call) : M unit :=
  match c with
  | c_set_next_form form_id => set_next_form form_id
  | c_switch_form form_id => switch_form form_id
  | c_switch_form_now => switch_form_now
  | c_switch_form_previous => switch_form_previous
  | c_set_next_form_previous backup => set_next_form_previous backup
  | c_remove_last_form_from_history => remove_last_form_from_history
  | c_reset_history => reset_history
  | c_add_form form_id cls args keywords =>
      let! _ := add_form form_id cls args keywords in ret tt
  | c_add_form_class form_id cls args keywords =>
      add_form_class form_id cls args keywords
  | c_remove_form form_id => remove_form form_id
  | c_update_self g =>
      let! t := get _THIS_FORM in
      let! a := as_form t in
      let! f := deref a in
      store a (g f)
  end.

Fixpoint do_calls (cs : list call) : M unit :=
  match cs with
  | [] => ret tt
  | c :: cs' => do_call c ;; do_calls cs'
  end.

(** ** The main loop *)

(** [hasattr(self._THIS_FORM, name)] for one of the optional methods *)
Definition this_form_has (method : form -> bool) : M bool :=
  let! t := get _THIS_FORM in
  match t with
  | Some (FormRef a) => let! f := deref a in ret (method f)
  | _ => ret false
  end.

(** [self._THIS_FORM.<method>()] for a method every form has *)
Definition this_form_call (ev : addr -> event) : M unit :=
  let! t := get _THIS_FORM in
  let! a := as_form t in
  log (ev a).

(** [while self.NEXT_ACTIVE_FORM != "" and self.NEXT_ACTIVE_FORM is not None] *)
Definition loop_condition (s : app) : bool :=
  match NEXT_ACTIVE_FORM s with
  | Some name => bool_decide (name ≠ "")
  | None => false
  end.

Definition history_append (name : string) : M unit :=
  modify (fun s => set_FORM_VISIT_LIST (_FORM_VISIT_LIST s ++ [name]) s).

(** The form to show: a class entry unpacks into class and arguments
    and is instantiated; a form object does not unpack (TypeError) and
    is taken as it is. *)
Definition resolve (name : string) : M unit :=
  try_except
    (let! o := Forms_getitem name in
     match o with
     | ClassEntry cls a k =>
         let! inst := construct cls a k in
         modify (set_THIS_FORM (Some (FormRef inst)))
     | FormRef _ => raise TypeError
     end)
    is_TypeError
    (let! o := Forms_getitem name in modify (set_THIS_FORM (Some o))).

(** The history grows by [name] unless [name] is already on top. *)
Definition record_visit (name : string) : M unit :=
  let! h := get _FORM_VISIT_LIST in
  if bool_decide (0 < length h) then
    let! top := from_option IndexError (last h) in
    if bool_decide (top ≠ name) then history_append name else ret tt
  else history_append name.

(** The first half of the loop body: [self.NEXT_ACTIVE_FORM] becomes
    the current form. *)
Definition select_next_form : M unit :=
  let! next := get NEXT_ACTIVE_FORM in
  let! name := from_option KeyError next in
  let! o := Forms_getitem name in
  modify (set_LAST_NEXT_ACTIVE_FORM (Some o)) ;;
  modify (set_LAST_ACTIVE_FORM_NAME (Some name)) ;;
  resolve name ;;
  (let! t := get _THIS_FORM in
   let! a := as_form t in
   let! f := deref a in
   store a (set_FORM_NAME (Some name) f)) ;;
  modify (set_ACTIVE_FORM_NAME (Some name)) ;;
  record_visit name.

(** The second half: the form runs; [calls] is what it does meanwhile. *)
Definition activate_this_form (calls : list call) : M unit :=
  let! act := this_form_has has_activate in
  if act then
    this_form_call ev_resize ;;
    this_form_call ev_activate ;;
    do_calls calls
  else
    (let! before := this_form_has has_before_editing in
     if before then this_form_call ev_before_editing else ret tt) ;;
    this_form_call ev_resize ;;
    this_form_call ev_edit ;;
    do_calls calls ;;
    (let! after := this_form_has has_after_editing in
     if after then this_form_call ev_after_editing else ret tt).

Definition on_in_main_loop : M unit := log ev_on_in_main_loop.

(** One turn of the loop. *)
Definition loop_body (calls : list call) : M unit :=
  select_next_form ;;
  activate_this_form calls ;;
  on_in_main_loop.

(** How a run of [main] ends. *)
Inductive run_result : Type :=
| Finished (s : app)              (* the loop exited, [main] returned *)
| Failed (e : exn) (s : app)      (* an exception left [main] *)
| Starved (s : app)               (* a form is due but the script is over *).

Definition on_start : app -> app := fun s => set_trace (trace s ++ [ev_on_start]) s.
Definition on_clean_exit : app -> app :=
  fun s => set_trace (trace s ++ [ev_on_clean_exit]) s.

(** The loop of [main]; the script gives, for each activation in turn,
    the calls that form makes. *)
Fixpoint main_loop (script : list (list call)) (s : app) : run_result :=
  if loop_condition s then
    match script with
    | [] => Starved s
    | calls :: script' =>
        match loop_body calls s with
        | (Ret _, s') => main_loop script' s'
        | (Raise e, s') => Failed e s'
        end
    end
  else Finished (on_clean_exit s).

Definition main (script : list (list call)) (s : app) : run_result :=
  main_loop script (on_start s).

(** ** The single-selection list: [selectone.SelectOne] *)

Module SelectOne.

(** The attributes of the widget that [update] and [h_select] use. *)
Record t : Type := Make {
  hidden : bool;
  value : pyvalue;
  cursor_line : Z
}.

Definition set_value (v : pyvalue) (w : t) : t :=
  {| hidden := hidden w; value := v; cursor_line := cursor_line w |}.

Section Inherited.
(** The methods inherited from [multiline.MultiLine], which draw. *)
Variable clear : t -> t.
Variable MultiLine_update : bool -> t -> t.

(** [update(self, clear=True)]: the returned Python value ([False],
    or [None] when the method falls off its end) and the widget. *)
Definition update (clear_arg : bool) (w : t) : option bool * t :=
  if hidden w then (Some false, clear w)
  else
    let w1 :=
      if negb (has_append (value w)) then
        match value w with
        | VNone => set_value (VList []) w
        | v => set_value (VList [v]) w
        end
      else w in
    (None, MultiLine_update clear_arg w1).
End Inherited.

Definition h_select (w : t) : t :=
  set_value (VList [VInt (cursor_line w)]) w.

End SelectOne.

(** ** The application of [EXAMPLE-multiple-screens.py] *)

(** A titled text field: a composite with a nested entry widget. *)
Definition TitleText : widget :=
  {| w_editing := None;
     entry_widget := Some {| w_editing := None; entry_widget := None |} |}.

(** [MainForm]: one titled field; the keyword arguments are kept. *)
Definition MainForm : form_class :=
  fun _ keywords =>
    Built {| FORM_NAME := None; parentApp := false; editing := None;
             editw := Some 0%Z; _widgets__ := Some [TitleText];
             has_activate := false; has_before_editing := false;
             has_after_editing := false;
             contents := VList (keywords.*2) |}.

(** [MyTestApp] after its [on_start]: MAIN and SECOND are persistent,
    THIRD is created again each time it is shown. *)
Definition MyTestApp : app :=
  ((let! _ := add_form "MAIN" MainForm [] [("name", VStr "Screen 1")] in
    let! _ := add_form "SECOND" MainForm [] [("name", VStr "Screen 2")] in
    add_form_class "THIRD" MainForm [] [("name", VStr "Screen 3")]) init).2.

(** The state a run ends in. *)
Definition final_state (r : run_result) : app :=
  match r with
  | Finished s => s
  | Failed _ s => s
  | Starved s => s
  end.

(** MAIN has sent the user on to SECOND, which is being shown. *)
Definition on_SECOND : app :=
  final_state (main [[c_set_next_form (Some "SECOND")]; []] MyTestApp).

(** ** Vocabulary of the properties *)

(** A method keeps a relation between the state it starts from and the
    state it leaves, whether it returns or raises. *)
Definition keeps (R : relation app) {A} (c : M A) : Prop :=
  forall s, R s (c s).2.

(** A call never grows the history, never frees an object, leaves
    [_THIS_FORM] alone and calls no hook. *)
Definition call_frame (s s' : app) : Prop :=
  _FORM_VISIT_LIST s' `prefix_of` _FORM_VISIT_LIST s /\
  length (heap s) <= length (heap s') /\
  _THIS_FORM s' = _THIS_FORM s /\
  trace s' = trace s.

(** The form that is being shown is named [name]. *)
Definition current_screen (s : app) (name : string) : Prop :=
  exists a f, _THIS_FORM s = Some (FormRef a) /\ heap s !! a = Some f /\
              FORM_NAME f = Some name.

(** The widget that holds the input focus:
    [f._widgets__[f.editw]], when all of that exists. *)
Definition focused (f : form) : option (list widget * nat * widget) :=
  match _widgets__ f, editw f with
  | Some ws, Some i =>
      match py_index ws i with
      | Some n =>
          match ws !! n with
          | Some w => Some (ws, n, w)
          | None => None
          end
      | None => None
      end
  | _, _ => None
  end.

(** The history once [name] has been shown. *)
Definition with_visit (name : string) (h : list string) : list string :=
  if bool_decide (last h = Some name) then h else h ++ [name].

(** The state in which the loop hands over to the form at [a], which
    it found under [name] as registry value [o]. *)
Definition selected (name : string) (o : pyobj) (a : addr)
    (hp : list form) (s : app) : app :=
  {| _FORM_VISIT_LIST := with_visit name (_FORM_VISIT_LIST s);
     NEXT_ACTIVE_FORM := NEXT_ACTIVE_FORM s;
     _LAST_NEXT_ACTIVE_FORM := Some o;
     _Forms := _Forms s;
     LAST_ACTIVE_FORM_NAME := Some name;
     _THIS_FORM := Some (FormRef a);
     ACTIVE_FORM_NAME := Some name;
     heap := hp;
     trace := trace s |}.

(** What running the current form leaves alone: [_THIS_FORM], and the
    objects there are. *)
Definition this_kept (s s' : app) : Prop :=
  _THIS_FORM s' = _THIS_FORM s /\ length (heap s) <= length (heap s').

(** The calls that showing the form at [a] makes on it, when that form
    is [f] as it starts and [f2] as its editing ends. *)
Definition activation_events (a : addr) (f f2 : form) : list event :=
  if has_activate f then [ev_resize a; ev_activate a]
  else (if has_before_editing f then [ev_before_editing a] else [])
       ++ [ev_resize a; ev_edit a]
       ++ (if has_after_editing f2 then [ev_after_editing a] else []).

(** The calls of one turn of the loop on some form. *)
Definition is_activation (t : list event) : Prop :=
  exists a f f2, t = activation_events a f f2.

(** A call on a form, as opposed to a hook of the application. *)
Definition form_event (e : event) : bool :=
  match e with
  | ev_on_start | ev_on_in_main_loop | ev_on_clean_exit => false
  | _ => true
  end.

(** The trace grows by calls on forms only. *)
Definition only_form_events (s s' : app) : Prop :=
  exists t, trace s' = trace s ++ t /\ Forall (fun e => form_event e = true) t.

(** [name] can be shown: it is registered, as a form object that exists
    or as a class whose constructor returns a form. *)
Definition resolvable (s : app) (name : string) : Prop :=
  match _Forms s !! name with
  | Some (FormRef a) => a < length (heap s)
  | Some (ClassEntry cls ar k) => exists f, cls ar k = Built f
  | None => False
  end.

(** The values of [NEXT_ACTIVE_FORM] that end the loop. *)
Definition is_stop (form_id : ident) : Prop :=
  form_id = None \/ form_id = Some "".

(** No entry of the history is followed by an equal one. *)
Definition no_consecutive_duplicates (l : list string) : Prop :=
  forall i x y, l !! i = Some x -> l !! S i = Some y -> x <> y.

(** A clean history stays clean. *)
Definition history_stays_clean (s s' : app) : Prop :=
  no_consecutive_duplicates (_FORM_VISIT_LIST s) ->
  no_consecutive_duplicates (_FORM_VISIT_LIST s').

(** ** More of the sources *)

(** [MyTestApp.change_form] of [EXAMPLE-multiple-screens.py]: switch,
    and forget where the user has been. *)
Definition change_form (name : ident) : M unit :=
  switch_form name ;;
  reset_history.

(** [l[i]]; [None] stands for IndexError. *)
Definition py_getitem {A} (l : list A) (i : Z) : option A :=
  match py_index l i with
  | Some n => l !! n
  | None => None
  end.

(** [i == v] for an integer [i]: an integer equals an integer of the
    same value and the boolean that counts as it, and nothing else of
    the values here. *)
Definition py_int_eq (i : Z) (v : pyvalue) : bool :=
  match v with
  | VInt z => (i =? z)%Z
  | VBool b => (i =? (if b then 1 else 0))%Z
  | _ => false
  end.

(** [i in v]; [None] stands for TypeError: only a list or a tuple can
    be searched for an integer. *)
Definition py_int_in (i : Z) (v : pyvalue) : option bool :=
  match v with
  | VList items | VTuple items => Some (existsb (py_int_eq i) items)
  | _ => None
  end.

(** [None], a boolean, an integer or a string: the values here in
    which an integer cannot be looked for. *)
Definition is_scalar (v : pyvalue) : bool :=
  match v with
  | VNone | VBool _ | VInt _ | VStr _ => true
  | VTuple _ | VList _ => false
  end.

(** [SelectOne._print_line]: one row of the list is set up for drawing. *)
Module SelectOneLine.

(** The attributes of a row widget that [_print_line] assigns. *)
Record line : Type := Line {
  value : pyvalue;
  hide : bool;
  show_bold : bool;
  name : pyvalue;
  highlight : bool
}.

(** [_print_line(self, line, value_indexer)], with [self.values] and the
    widget: the exception that leaves the method, if one does, and the row. *)
Definition _print_line (values : list pyvalue) (w : SelectOne.t)
    (l : line) (value_indexer : Z) : option exn * line :=
  match py_getitem values value_indexer with
  | Some item =>
      (* line.value = self.values[value_indexer]; line.hide = False *)
      let l1 := {| value := item; hide := false; show_bold := show_bold l;
                   name := name l; highlight := highlight l |} in
      match py_int_in value_indexer (SelectOne.value w) with
      | Some true =>
          (None, {| value := VBool true; hide := false; show_bold := true;
                    name := item; highlight := false |})
      | Some false =>
          (None, {| value := VBool false; hide := false; show_bold := false;
                    name := item; highlight := false |})
      | None => (Some TypeError, l1)
      end
  | None =>
      (* except IndexError *)
      (None, {| value := value l; hide := true; show_bold := show_bold l;
                name := VNone; highlight := false |})
  end.

End SelectOneLine.

(** ** More vocabulary *)

(** The form that [switch_form_now] leaves: its [editing] flag cleared,
    and the flags of the focused widget and of its entry widget, when
    there are such. *)
Definition form_after_switch (f : form) : form :=
  match focused f with
  | Some (ws, n, w) =>
      let w1 := widget_stop_editing w in
      let w2 := default w1 (widget_stop_entry_editing w1) in
      set_widgets (Some (<[n := w2]> ws)) (set_editing (Some false) f)
  | None => set_editing (Some false) f
  end.

(** The names of the forms a run shows, when every form only requests
    its successor and [reqs] lists the requests of each turn: the loop
    shows the form that is due and goes on with the last request. *)
Fixpoint visits (next : ident) (reqs : list (list ident)) : list string :=
  match reqs with
  | [] => []
  | ids :: reqs' =>
      match next with
      | Some name =>
          if bool_decide (name <> "")
          then name :: visits (default next (last ids)) reqs'
          else []
      | None => []
      end
  end.

(** The registry and the requests are as they were. *)
Definition navigation_kept (s s' : app) : Prop :=
  _FORM_VISIT_LIST s' = _FORM_VISIT_LIST s /\
  NEXT_ACTIVE_FORM s' = NEXT_ACTIVE_FORM s /\
  _Forms s' = _Forms s /\
  _THIS_FORM s' = _THIS_FORM s /\
  trace s' = trace s /\
  length (heap s') = length (heap s).

(** The registry is as it was. *)
Definition registry_kept (s s' : app) : Prop := _Forms s' = _Forms s.

(** A call that neither registers nor removes a form. *)
Definition leaves_registry (c : call) : bool :=
  match c with
  | c_add_form _ _ _ _ | c_add_form_class _ _ _ _ | c_remove_form _ => false
  | _ => true
  end.

(** Where [set_next_form_previous] leads from the form named [C]: the
    history and the next form it leaves, from those it finds. *)
Definition go_back (C : string) (backup : ident)
    (h : list string) (next : ident) : list string * ident :=
  match h with
  | [] => ([], backup)
  | _ :: _ =>
      let h1 := if bool_decide (last h = Some C) then removelast h else h in
      if bool_decide (Some C = next) then
        match last h1 with
        | Some p => (removelast h1, Some p)
        | None => (h1, backup)
        end
      else (h1, next)
  end.

(** The calls on the form at [a] before it takes over. *)
Definition opening_events (a : addr) (f : form) : list event :=
  if has_activate f then [ev_resize a; ev_activate a]
  else (if has_before_editing f then [ev_before_editing a] else [])
       ++ [ev_resize a; ev_edit a].

(** Two states agree in all that navigation reads. *)
Definition same_navigation (s1 s2 : app) : Prop :=
  _FORM_VISIT_LIST s1 = _FORM_VISIT_LIST s2 /\
  NEXT_ACTIVE_FORM s1 = NEXT_ACTIVE_FORM s2 /\
  _Forms s1 = _Forms s2 /\
  heap s1 = heap s2 /\
  _THIS_FORM s1 = _THIS_FORM s2.

(** Everything of the application object but the history, the next form
    and the form objects is as it was. *)
Definition bookkeeping_kept (s s' : app) : Prop :=
  _Forms s' = _Forms s /\
  _THIS_FORM s' = _THIS_FORM s /\
  _LAST_NEXT_ACTIVE_FORM s' = _LAST_NEXT_ACTIVE_FORM s /\
  LAST_ACTIVE_FORM_NAME s' = LAST_ACTIVE_FORM_NAME s /\
  ACTIVE_FORM_NAME s' = ACTIVE_FORM_NAME s /\
  trace s' = trace s.

(** Everything of a form but its [editing] flag and its widgets is as
    it was. *)
Definition form_attributes_kept (f f' : form) : Prop :=
  FORM_NAME f' = FORM_NAME f /\
  parentApp f' = parentApp f /\
  editw f' = editw f /\
  has_activate f' = has_activate f /\
  has_before_editing f' = has_before_editing f /\
  has_after_editing f' = has_after_editing f /\
  contents f' = contents f.

(** * Properties of the controller *)

(** ** Reasoning about methods *)

Ltac munfold :=
  unfold from_option, try_except, bind, get, modify, ret, raise in *.

Section Keeps.
Context (R : relation app) `{!PreOrder R}.

Lemma keeps_ret {A} (a : A) : keeps R (ret a).
Proof. intros s. reflexivity. Qed.

Lemma keeps_raise {A} (e : exn) : keeps R (@raise A e).
Proof. intros s. reflexivity. Qed.

Lemma keeps_get {A} (proj : app -> A) : keeps R (get proj).
Proof. intros s. reflexivity. Qed.

Lemma keeps_from_option {A} e (o : option A) : keeps R (from_option e o).
Proof. destruct o; [apply keeps_ret | apply keeps_raise]. Qed.

Lemma keeps_modify (f : app -> app) :
  (forall s, R s (f s)) -> keeps R (modify f).
Proof. intros H s. apply H. Qed.

Lemma keeps_bind {A B} (c : M A) (k : A -> M B) :
  keeps R c -> (forall a, keeps R (k a)) -> keeps R (bind c k).
Proof.
  intros Hc Hk s. unfold bind. specialize (Hc s).
  destruct (c s) as [[a|e] s1]; simpl in *; [|done].
  etransitivity; [exact Hc | apply Hk].
Qed.

Lemma keeps_try_except {A} (c : M A) handles (h : M A) :
  keeps R c -> keeps R h -> keeps R (try_except c handles h).
Proof.
  intros Hc Hh s. unfold try_except. specialize (Hc s).
  destruct (c s) as [[a|e] s1]; simpl in *; [done|].
  destruct (handles e); [|done].
  etransitivity; [exact Hc | apply Hh].
Qed.
End Keeps.

Lemma removelast_prefix {A} (l : list A) : removelast l `prefix_of` l.
Proof.
  induction l as [|x l IH] using rev_ind; [done|].
  rewrite removelast_last. by apply prefix_app_r.
Qed.

Create HintDb keeps discriminated.

(** A state update keeps a relation that it visibly keeps. *)
Ltac keeps_leaf :=
  apply keeps_modify; intros ?;
  first [ solve [auto with keeps]
        | hnf; simpl; rewrite ?length_insert, ?length_app; simpl;
          first [ done | lia
                | repeat split;
                  first [ done | lia | apply removelast_prefix
                        | apply prefix_nil ] ] ].

Ltac keeps_step :=
  lazymatch goal with
  | |- keeps _ (bind _ _) => apply keeps_bind; [apply _ | | intros ?]
  | |- keeps _ (try_except _ _ _) => apply keeps_try_except; [apply _ | |]
  | |- keeps _ (ret _) => apply keeps_ret; apply _
  | |- keeps _ (raise _) => apply keeps_raise; apply _
  | |- keeps _ (get _) => apply keeps_get; apply _
  | |- keeps _ (from_option _ _) => apply keeps_from_option; apply _
  | |- keeps _ (match ?x with _ => _ end) => destruct x
  | |- keeps _ (modify _) => keeps_leaf
  | |- keeps _ _ =>
      first
        [ solve [auto with keeps]
        | progress
            unfold deref, store, alloc, construct, as_form, Forms_getitem,
              set_next_form, this_form_stop_editing, focused_widget,
              switch_form_now, switch_form, history_pop,
              remove_last_form_from_history, this_form_name,
              set_next_form_previous, switch_form_previous, reset_history,
              add_form_class, register_form, add_form, remove_form,
              this_form_has, this_form_call, history_append, resolve, log ]
  end.

Ltac keeps_solve := repeat keeps_step.

(** ** What a call from a form can change *)

#[export] Instance call_frame_preorder : PreOrder call_frame.
Proof.
  split.
  - intros s. by repeat split.
  - intros s1 s2 s3 (H1 & H2 & H3 & H4) (H1' & H2' & H3' & H4').
    repeat split; [by etransitivity | lia | congruence | congruence].
Qed.

Lemma frame_do_call c : keeps call_frame (do_call c).
Proof. destruct c; simpl; keeps_solve. Qed.

Lemma frame_do_calls cs : keeps call_frame (do_calls cs).
Proof.
  induction cs as [|c cs IH]; simpl; keeps_solve.
  apply frame_do_call.
Qed.

(** ** The history stack *)

Lemma history_pop_nil (s : app) :
  _FORM_VISIT_LIST s = [] -> history_pop s = (Raise IndexError, s).
Proof. intros H. unfold history_pop; munfold. by rewrite H. Qed.

Lemma history_pop_snoc (s : app) (h : list string) (x : string) :
  _FORM_VISIT_LIST s = h ++ [x] ->
  history_pop s = (Ret x, set_FORM_VISIT_LIST h s).
Proof.
  intros H. unfold history_pop; munfold.
  rewrite H, last_snoc. simpl. unfold set_FORM_VISIT_LIST.
  by rewrite H, removelast_last.
Qed.

(** C10.  [remove_last_form_from_history] pops twice without looking:
    on an empty history it raises IndexError; on a history of one entry
    it raises IndexError too, after that entry is gone (the failed call has
    emptied the history); on two entries or more it removes the last two. *)
Theorem remove_last_form_from_history_not_atomic (s : app) :
  (_FORM_VISIT_LIST s = [] ->
     remove_last_form_from_history s = (Raise IndexError, s)) /\
  (forall x, _FORM_VISIT_LIST s = [x] ->
     remove_last_form_from_history s
     = (Raise IndexError, set_FORM_VISIT_LIST [] s)) /\
  (forall h x y, _FORM_VISIT_LIST s = h ++ [x; y] ->
     remove_last_form_from_history s = (Ret tt, set_FORM_VISIT_LIST h s)).
Proof.
  unfold remove_last_form_from_history. split; [|split].
  - intros H. unfold bind. by rewrite (history_pop_nil s H).
  - intros x H. unfold bind. rewrite (history_pop_snoc s [] x H).
    by rewrite history_pop_nil.
  - intros h x y H. unfold bind.
    rewrite (history_pop_snoc s (h ++ [x]) y)
      by (rewrite H, <- app_assoc; done).
    by rewrite (history_pop_snoc _ h x).
Qed.

Lemma remove_last_form_from_history_not_atomic_witness :
  remove_last_form_from_history (set_FORM_VISIT_LIST ["MAIN"] init)
  = (Raise IndexError, set_FORM_VISIT_LIST [] (set_FORM_VISIT_LIST ["MAIN"] init)).
Proof.
  apply (proj1 (proj2 (remove_last_form_from_history_not_atomic
                         (set_FORM_VISIT_LIST ["MAIN"] init))) "MAIN").
  reflexivity.
Defined.

#[local] Arguments removelast : simpl never.
#[local] Arguments last : simpl never.

Lemma set_next_form_previous_outcomes
    (s : app) (C : string) (backup : ident) :
  current_screen s C ->
  let h := _FORM_VISIT_LIST s in
  let h1 := if bool_decide (last h = Some C) then removelast h else h in
  (h = [] ->
     set_next_form_previous backup s
     = (Ret tt, set_NEXT_ACTIVE_FORM backup s)) /\
  (h <> [] -> NEXT_ACTIVE_FORM s <> Some C ->
     set_next_form_previous backup s = (Ret tt, set_FORM_VISIT_LIST h1 s)) /\
  (h <> [] -> NEXT_ACTIVE_FORM s = Some C -> forall h2 p, h1 = h2 ++ [p] ->
     set_next_form_previous backup s
     = (Ret tt, set_NEXT_ACTIVE_FORM (Some p) (set_FORM_VISIT_LIST h2 s))) /\
  (h <> [] -> NEXT_ACTIVE_FORM s = Some C -> h1 = [] ->
     set_next_form_previous backup s
     = (Ret tt, set_NEXT_ACTIVE_FORM backup (set_FORM_VISIT_LIST [] s))) /\
  (forall A, h = [A; C] -> NEXT_ACTIVE_FORM s = Some C ->
     set_next_form_previous backup s
     = (Ret tt, set_NEXT_ACTIVE_FORM (Some A) (set_FORM_VISIT_LIST [] s))).
Proof.
  intros (a & f & Ht & Hf & Hn).
  destruct s as [hist next lastnext forms lastname this active hp tr].
  simpl in *. subst this.
  set (h1 := if bool_decide (last hist = Some C) then removelast hist else hist).
  assert (Hrun :
    set_next_form_previous backup
      (App hist next lastnext forms lastname (Some (FormRef a)) active hp tr)
    = match hist with
      | [] =>
          (Ret tt, App hist backup lastnext forms lastname
                       (Some (FormRef a)) active hp tr)
      | _ :: _ =>
          if bool_decide (Some C = next) then
            match last h1 with
            | Some p =>
                (Ret tt, App (removelast h1) (Some p) lastnext forms lastname
                             (Some (FormRef a)) active hp tr)
            | None =>
                (Ret tt, App h1 backup lastnext forms lastname
                             (Some (FormRef a)) active hp tr)
            end
          else (Ret tt, App h1 next lastnext forms lastname
                            (Some (FormRef a)) active hp tr)
      end).
  { unfold set_next_form_previous, this_form_name, as_form, deref, history_pop,
      set_next_form; munfold; simpl.
    rewrite Hf; simpl. rewrite Hn; simpl. unfold h1.
    destruct (last hist) as [top|] eqn:Etop; simpl.
    - destruct hist as [|x l]; [done|].
      repeat (first [rewrite Etop | rewrite Hf | rewrite Hn | case_bool_decide];
              simplify_eq; simpl);
        try done.
      by destruct (last (removelast (x :: l))).
    - apply last_None in Etop. by subst hist. }
  rewrite Hrun. unfold set_NEXT_ACTIVE_FORM, set_FORM_VISIT_LIST; simpl.
  repeat split.
  - by intros ->.
  - intros Hne Hnext. destruct hist; [done|].
    by rewrite (bool_decide_eq_false_2 (Some C = next)) by congruence.
  - intros Hne Hnext h2 p Hh2. destruct hist; [done|].
    rewrite (bool_decide_eq_true_2 (Some C = next)) by congruence.
    by rewrite Hh2, last_snoc, removelast_last.
  - intros Hne Hnext Hnil. destruct hist; [done|].
    rewrite (bool_decide_eq_true_2 (Some C = next)) by congruence.
    by rewrite Hnil.
  - intros A HA Hnext. unfold h1. rewrite HA. simpl.
    rewrite (bool_decide_eq_true_2 (Some C = next)) by congruence.
    by rewrite (bool_decide_eq_true_2 (Some C = Some C)) by done.
Qed.

(** C1.  [set_next_form_previous] (the body of [switch_form_previous])
    while the form named [C] is shown.  Stage one drops [C] from the top of
    the history; stage two, if the next form is still [C], pops the new
    top and requests it; a history that is empty when it is looked at
    makes the backup the next form, and no exception leaves the method.
    From [B] with history [A; B] and next form [B] the next form becomes
    [A] and the history is empty.  Nothing but the history and the next
    form changes. *)
Theorem set_next_form_previous_two_stage_pop
    (s : app) (C : string) (backup : ident) :
  current_screen s C ->
  let h := _FORM_VISIT_LIST s in
  let h1 := if bool_decide (last h = Some C) then removelast h else h in
  let r := set_next_form_previous backup s in
  r.1 = Ret tt /\
  (h = [] ->
     NEXT_ACTIVE_FORM r.2 = backup /\ _FORM_VISIT_LIST r.2 = []) /\
  (h <> [] -> NEXT_ACTIVE_FORM s <> Some C ->
     NEXT_ACTIVE_FORM r.2 = NEXT_ACTIVE_FORM s /\ _FORM_VISIT_LIST r.2 = h1) /\
  (h <> [] -> NEXT_ACTIVE_FORM s = Some C -> forall h2 p, h1 = h2 ++ [p] ->
     NEXT_ACTIVE_FORM r.2 = Some p /\ _FORM_VISIT_LIST r.2 = h2) /\
  (h <> [] -> NEXT_ACTIVE_FORM s = Some C -> h1 = [] ->
     NEXT_ACTIVE_FORM r.2 = backup /\ _FORM_VISIT_LIST r.2 = []) /\
  (forall A, h = [A; C] -> NEXT_ACTIVE_FORM s = Some C ->
     NEXT_ACTIVE_FORM r.2 = Some A /\ _FORM_VISIT_LIST r.2 = []) /\
  bookkeeping_kept s r.2 /\
  heap r.2 = heap s.
Proof.
  intros Hcur.
  pose proof (set_next_form_previous_outcomes s C backup Hcur) as H.
  cbv zeta in *.
  destruct H as (Hnil & Hother & Hpop & Hlast & HAB).
  assert (Hshape : exists n hh,
            set_next_form_previous backup s
            = (Ret tt, set_NEXT_ACTIVE_FORM n (set_FORM_VISIT_LIST hh s))).
  { destruct (decide (_FORM_VISIT_LIST s = [])) as [E|E].
    - exists backup, (_FORM_VISIT_LIST s). rewrite (Hnil E). by destruct s.
    - destruct (decide (NEXT_ACTIVE_FORM s = Some C)) as [En|En].
      + destruct (if bool_decide (last (_FORM_VISIT_LIST s) = Some C)
                  then removelast (_FORM_VISIT_LIST s)
                  else _FORM_VISIT_LIST s) as [|p h2 _] eqn:Ek using rev_ind.
        * eexists _, _. by apply Hlast.
        * eexists _, _. by apply (Hpop E En h2 p).
      + exists (NEXT_ACTIVE_FORM s),
          (if bool_decide (last (_FORM_VISIT_LIST s) = Some C)
           then removelast (_FORM_VISIT_LIST s)
           else _FORM_VISIT_LIST s).
        rewrite (Hother E En). by destruct s. }
  split_and!.
  - destruct Hshape as (n & hh & ->). done.
  - intros E. rewrite (Hnil E). simpl. by rewrite E.
  - intros E En. by rewrite (Hother E En).
  - intros E En h2 p Eh. by rewrite (Hpop E En h2 p Eh).
  - intros E En Eh. by rewrite (Hlast E En Eh).
  - intros A EA En. by rewrite (HAB A EA En).
  - destruct Hshape as (n & hh & ->). by split_and!.
  - destruct Hshape as (n & hh & ->). done.
Qed.

Lemma set_next_form_previous_two_stage_pop_witness :
  (set_next_form_previous (Some "C")
     (App ["A"; "B"] (Some "B") None ∅ None (Some (FormRef 0)) None
          [Form (Some "B") false None None None false false false VNone] [])).1
  = Ret tt /\
  NEXT_ACTIVE_FORM
    (set_next_form_previous (Some "C")
       (App ["A"; "B"] (Some "B") None ∅ None (Some (FormRef 0)) None
          [Form (Some "B") false None None None false false false VNone] [])).2
  = Some "A" /\
  _FORM_VISIT_LIST
    (set_next_form_previous (Some "C")
       (App ["A"; "B"] (Some "B") None ∅ None (Some (FormRef 0)) None
          [Form (Some "B") false None None None false false false VNone] [])).2
  = [].
Proof.
  destruct (set_next_form_previous_two_stage_pop
              (App ["A"; "B"] (Some "B") None ∅ None (Some (FormRef 0)) None
          [Form (Some "B") false None None None false false false VNone] [])
              "B" (Some "C"))
    as (Hret & _ & _ & _ & _ & HAB & _).
  { exists 0, (Form (Some "B") false None None None false false false VNone).
    by split_and!. }
  split; [exact Hret|].
  by apply (HAB "A").
Defined.

(** ** The history has no consecutive duplicates *)

#[export] Instance history_stays_clean_preorder : PreOrder history_stays_clean.
Proof. split; unfold history_stays_clean; [intros s | intros s1 s2 s3]; tauto. Qed.

Lemma no_consecutive_duplicates_nil : no_consecutive_duplicates [].
Proof. intros i x y H. by rewrite lookup_nil in H. Qed.

Lemma no_consecutive_duplicates_prefix (l k : list string) :
  l `prefix_of` k -> no_consecutive_duplicates k -> no_consecutive_duplicates l.
Proof.
  intros Hpre Hk i x y Hx Hy.
  apply (Hk i); by eapply prefix_lookup_Some.
Qed.

Lemma no_consecutive_duplicates_removelast (l : list string) :
  no_consecutive_duplicates l -> no_consecutive_duplicates (removelast l).
Proof. apply no_consecutive_duplicates_prefix, removelast_prefix. Qed.

Lemma no_consecutive_duplicates_snoc (l : list string) (x : string) :
  no_consecutive_duplicates l -> last l <> Some x ->
  no_consecutive_duplicates (l ++ [x]).
Proof.
  intros Hl Hlast i a b Ha Hb.
  destruct (decide (S i < length l)) as [Hlt|Hge].
  - rewrite lookup_app_l in Ha by lia. rewrite lookup_app_l in Hb by lia.
    by apply (Hl i).
  - assert (S i = length l) as Hi.
    { apply lookup_lt_Some in Hb. rewrite length_app in Hb. simpl in Hb. lia. }
    rewrite lookup_app_l in Ha by lia.
    rewrite Hi, lookup_app_r, Nat.sub_diag in Hb by lia. simpl in Hb.
    injection Hb as <-. intros ->. apply Hlast.
    rewrite last_lookup. rewrite <- Hi. simpl. done.
Qed.

(** What [record_visit] leaves in the history. *)
Lemma record_visit_run (name : string) (s : app) :
  record_visit name s
  = (Ret tt,
     set_FORM_VISIT_LIST
       (if bool_decide (last (_FORM_VISIT_LIST s) = Some name)
        then _FORM_VISIT_LIST s
        else _FORM_VISIT_LIST s ++ [name]) s).
Proof.
  destruct s as [h next lastnext forms lastname this active hp tr].
  unfold record_visit, history_append; munfold; simpl.
  destruct (last h) as [top|] eqn:Etop.
  - rewrite (bool_decide_eq_true_2 (0 < length h)).
    2:{ destruct h; [done | simpl; lia]. }
    destruct (decide (top = name)) as [->|Hne].
    + rewrite (bool_decide_eq_false_2 (name <> name)) by (intros H; by apply H).
      by rewrite (bool_decide_eq_true_2 (Some name = Some name)).
    + rewrite (bool_decide_eq_true_2 (top <> name)) by done.
      by rewrite (bool_decide_eq_false_2 (Some top = Some name)) by congruence.
  - apply last_None in Etop. by subst h.
Qed.

Lemma clean_record_visit name : keeps history_stays_clean (record_visit name).
Proof.
  intros s Hs. rewrite record_visit_run. simpl.
  case_bool_decide; [done|]. by apply no_consecutive_duplicates_snoc.
Qed.

#[export] Hint Resolve no_consecutive_duplicates_nil
  no_consecutive_duplicates_removelast clean_record_visit : keeps.

Lemma clean_do_calls cs : keeps history_stays_clean (do_calls cs).
Proof.
  intros s Hs.
  eapply no_consecutive_duplicates_prefix; [apply (frame_do_calls cs s) | done].
Qed.

#[export] Hint Resolve clean_do_calls : keeps.

Lemma clean_loop_body calls : keeps history_stays_clean (loop_body calls).
Proof.
  unfold loop_body, select_next_form, activate_this_form, on_in_main_loop.
  keeps_solve.
Qed.

Lemma clean_main_loop (script : list (list call)) (s : app) :
  history_stays_clean s (final_state (main_loop script s)).
Proof.
  revert s. induction script as [|calls script IH]; intros s; simpl.
  - destruct (loop_condition s); simpl; [reflexivity | by intros ?].
  - destruct (loop_condition s); simpl; [|by intros ?].
    pose proof (clean_loop_body calls s) as Hbody.
    destruct (loop_body calls s) as [[[]|e] s1]; simpl in *; [|exact Hbody].
    etransitivity; [exact Hbody | apply IH].
Qed.



(** ** Switching forms at once *)

Lemma py_index_insert {A} (l : list A) (n : nat) (x : A) (i : Z) :
  py_index (<[n:=x]> l) i = py_index l i.
Proof. unfold py_index. by rewrite length_insert. Qed.

Lemma py_index_lt {A} (l : list A) (i : Z) (n : nat) :
  py_index l i = Some n -> n < length l.
Proof.
  unfold py_index. intros H.
  repeat case_match; simplify_eq; lia.
Qed.

Lemma focused_Some (f : form) (ws : list widget) (n : nat) (w : widget) :
  focused f = Some (ws, n, w) -> _widgets__ f = Some ws /\ ws !! n = Some w.
Proof.
  unfold focused. intros H. repeat case_match; by simplify_eq.
Qed.

Lemma switch_form_outcome
    (s : app) (a : addr) (f : form) (form_id : ident) :
  _THIS_FORM s = Some (FormRef a) -> heap s !! a = Some f ->
  exists f' : form,
    switch_form form_id s
    = (Ret tt, set_NEXT_ACTIVE_FORM form_id (set_heap (<[a := f']> (heap s)) s)) /\
    editing f' = Some false /\
    (forall ws n w, focused f = Some (ws, n, w) ->
       exists w',
         f' = set_widgets (Some (<[n := w']> ws)) (set_editing (Some false) f) /\
         w_editing w' = Some false /\
         (entry_widget w = None -> entry_widget w' = None) /\
         (forall e, entry_widget w = Some e ->
            entry_widget w' = Some (widget_stop_editing e))) /\
    (focused f = None -> f' = set_editing (Some false) f).
Proof.
  intros Ht Hf.
  destruct s as [h next lastnext forms lastname this active hp tr].
  simpl in *. subst this.
  assert (Ha : a < length hp) by by eapply lookup_lt_Some.
  unfold switch_form, switch_form_now, this_form_stop_editing, focused_widget,
    as_form, deref, store, set_next_form, widget_stop_entry_editing;
    munfold; simpl.
  unfold focused.
  assert (Hlt : forall (ws : list widget) i n,
             py_index ws i = Some n -> n < length ws)
    by apply @py_index_lt.
  destruct (_widgets__ f) as [ws|] eqn:Ews;
  [destruct (editw f) as [i|] eqn:Ei;
   [destruct (py_index ws i) as [n|] eqn:En;
    [destruct (ws !! n) as [w|] eqn:Ew;
     [destruct (entry_widget w) as [e|] eqn:Ee|] |] |] |];
  repeat (first [ rewrite Hf | rewrite Ews | rewrite Ei | rewrite En
                | rewrite Ew | rewrite Ee
                | rewrite py_index_insert
                | rewrite list_insert_insert_eq
                | rewrite list_lookup_insert_eq
                    by (rewrite ?length_insert; eauto) ];
          simpl);
  (eexists; split; [reflexivity|]; split; [reflexivity|]; split;
   [intros ws0 n0 w0 Heq; simplify_eq | intros Heq; simplify_eq]);
  try (by destruct f);
  (eexists; split; [by destruct f|]; simpl; repeat split; congruence).
Qed.

(** C5.  [switch_form(form_id)] while a form is shown: the form's
    [editing] flag is cleared and [form_id] becomes the next form.  If
    [_widgets__[editw]] exists, that widget's [editing] flag is cleared,
    and so is the flag of its [entry_widget] when it has one; the other
    widgets are as they were, and if there is no such widget the form is
    otherwise left as it was.  In no case does the call raise; nothing
    else of the form, of the other objects or of the application is
    changed. *)
Theorem switch_form_clears_editing
    (s : app) (a : addr) (f : form) (form_id : ident) :
  _THIS_FORM s = Some (FormRef a) -> heap s !! a = Some f ->
  exists (s' : app) (f' : form),
    switch_form form_id s = (Ret tt, s') /\
    NEXT_ACTIVE_FORM s' = form_id /\
    heap s' !! a = Some f' /\
    editing f' = Some false /\
    (forall ws n w, focused f = Some (ws, n, w) ->
       exists ws' w',
         _widgets__ f' = Some ws' /\
         ws' !! n = Some w' /\
         w_editing w' = Some false /\
         (entry_widget w = None -> entry_widget w' = None) /\
         (forall e, entry_widget w = Some e ->
            exists e',
              entry_widget w' = Some e' /\
              w_editing e' = Some false /\
              entry_widget e' = entry_widget e) /\
         length ws' = length ws /\
         (forall m, m <> n -> ws' !! m = ws !! m)) /\
    (focused f = None -> _widgets__ f' = _widgets__ f) /\
    form_attributes_kept f f' /\
    (forall b, b <> a -> heap s' !! b = heap s !! b) /\
    length (heap s') = length (heap s) /\
    _FORM_VISIT_LIST s' = _FORM_VISIT_LIST s /\
    bookkeeping_kept s s'.
Proof.
  intros Ht Hf.
  destruct (switch_form_outcome s a f form_id Ht Hf)
    as (f' & Hrun & Hediting & Hfocused & Hnone).
  assert (Ha : a < length (heap s)) by by eapply lookup_lt_Some.
  eexists _, f'. split; [exact Hrun|]. simpl. split_and!.
  - done.
  - by apply list_lookup_insert_eq.
  - done.
  - intros ws n w Hfoc.
    destruct (Hfocused ws n w Hfoc) as (w' & -> & Hw & Hno & Hentry).
    destruct (focused_Some f ws n w Hfoc) as [_ Hn].
    assert (n < length ws) by by eapply lookup_lt_Some.
    exists (<[n := w']> ws), w'. simpl. split_and!.
    + done.
    + by apply list_lookup_insert_eq.
    + done.
    + done.
    + intros e He. exists (widget_stop_editing e). by rewrite (Hentry e He).
    + by rewrite length_insert.
    + intros m Hm. by apply list_lookup_insert_ne.
  - intros Hno. by rewrite (Hnone Hno).
  - destruct (focused f) as [[[ws n] w]|] eqn:Hfoc.
    + destruct (Hfocused ws n w eq_refl) as (w' & -> & _). by split_and!.
    + rewrite (Hnone eq_refl). by split_and!.
  - intros b Hb. by apply list_lookup_insert_ne.
  - by rewrite length_insert.
  - done.
  - by split_and!.
Qed.

Lemma switch_form_clears_editing_witness :
  exists (s' : app) (f' : form) (ws' : list widget) (w' e' : widget),
    switch_form (Some "THIRD") on_SECOND = (Ret tt, s') /\
    NEXT_ACTIVE_FORM s' = Some "THIRD" /\
    heap s' !! 1 = Some f' /\
    editing f' = Some false /\
    _widgets__ f' = Some ws' /\
    ws' !! 0 = Some w' /\
    w_editing w' = Some false /\
    entry_widget w' = Some e' /\
    w_editing e' = Some false.
Proof.
  edestruct (fun f => switch_form_clears_editing on_SECOND 1 f (Some "THIRD"))
    as (s' & f' & Hrun & Hnext & Hheap & Hediting & Hfocused & _);
    [vm_compute; reflexivity | vm_compute; reflexivity |].
  destruct (Hfocused [TitleText] 0 TitleText)
    as (ws' & w' & Hws & Hw & Hwe & _ & Hentry & _);
    [vm_compute; reflexivity |].
  destruct (Hentry (Widget None None)) as (e' & He & Hee & _);
    [vm_compute; reflexivity |].
  exists s', f', ws', w', e'. by split_and!.
Defined.

(** ** One turn of the loop *)

Lemma lookup_snoc_new {A} (l : list A) (x : A) : (l ++ [x]) !! length l = Some x.
Proof. by apply list_lookup_middle. Qed.

Lemma insert_snoc_new {A} (l : list A) (x y : A) :
  <[length l := y]> (l ++ [x]) = l ++ [y].
Proof.
  rewrite insert_app_r_alt by lia. by rewrite Nat.sub_diag.
Qed.

Lemma resolve_class_entry (s : app) (name : string) cls a k (f : form) :
  _Forms s !! name = Some (ClassEntry cls a k) -> cls a k = Built f ->
  resolve name s
  = (Ret tt, set_THIS_FORM (Some (FormRef (length (heap s))))
               (set_heap (heap s ++ [f]) s)).
Proof.
  intros Hreg Hcls.
  unfold resolve, Forms_getitem, construct, alloc; munfold; simpl.
  rewrite Hreg; simpl. by rewrite Hcls.
Qed.

Lemma resolve_form_ref (s : app) (name : string) (a : addr) :
  _Forms s !! name = Some (FormRef a) ->
  resolve name s = (Ret tt, set_THIS_FORM (Some (FormRef a)) s).
Proof.
  intros Hreg. unfold resolve, Forms_getitem; munfold; simpl.
  by rewrite Hreg; simpl; rewrite Hreg.
Qed.

Lemma select_next_form_class_entry (s : app) (name : string) cls a k (f : form) :
  NEXT_ACTIVE_FORM s = Some name ->
  _Forms s !! name = Some (ClassEntry cls a k) -> cls a k = Built f ->
  select_next_form s
  = (Ret tt, selected name (ClassEntry cls a k) (length (heap s))
               (heap s ++ [set_FORM_NAME (Some name) f]) s).
Proof.
  intros Hnext Hreg Hcls.
  destruct s as [h next lastnext forms lastname this active hp tr].
  simpl in *. subst next.
  unfold select_next_form, resolve, Forms_getitem, construct, alloc, as_form,
    deref, store; munfold; simpl.
  repeat (first [ rewrite Hreg | rewrite Hcls | rewrite record_visit_run
                | rewrite lookup_snoc_new | rewrite insert_snoc_new ];
          simpl).
  reflexivity.
Qed.

Lemma select_next_form_form_ref (s : app) (name : string) (a : addr) (f : form) :
  NEXT_ACTIVE_FORM s = Some name ->
  _Forms s !! name = Some (FormRef a) -> heap s !! a = Some f ->
  select_next_form s
  = (Ret tt, selected name (FormRef a) a
               (<[a := set_FORM_NAME (Some name) f]> (heap s)) s).
Proof.
  intros Hnext Hreg Hf.
  destruct s as [h next lastnext forms lastname this active hp tr].
  simpl in *. subst next.
  unfold select_next_form, resolve, Forms_getitem, construct, alloc, as_form,
    deref, store; munfold; simpl.
  repeat (first [ rewrite Hreg | rewrite Hf | rewrite record_visit_run ];
          simpl).
  reflexivity.
Qed.

Lemma select_next_form_unknown (s : app) (name : string) :
  NEXT_ACTIVE_FORM s = Some name -> _Forms s !! name = None ->
  select_next_form s = (Raise KeyError, s).
Proof.
  intros Hnext Hreg. unfold select_next_form, Forms_getitem; munfold.
  by rewrite Hnext, Hreg.
Qed.

(** A class whose constructor raises is not shown.  A TypeError from
    the constructor is taken for the failed unpacking of a form object:
    the list itself becomes the current form, and assigning its
    [FORM_NAME] raises AttributeError. *)
Lemma select_next_form_constructor_raises
    (s : app) (name : string) cls ar k (e : exn) :
  NEXT_ACTIVE_FORM s = Some name ->
  _Forms s !! name = Some (ClassEntry cls ar k) -> cls ar k = CtorRaises e ->
  (select_next_form s).1
  = Raise (if is_TypeError e then AttributeError else e).
Proof.
  intros Hnext Hreg Hcls.
  destruct s as [h next lastnext forms lastname this active hp tr].
  simpl in *. subst next.
  unfold select_next_form, resolve, Forms_getitem, construct, as_form;
    munfold; simpl.
  repeat (first [rewrite Hreg | rewrite Hcls]; simpl).
  by destruct (is_TypeError e).
Qed.

(** A turn of the loop that gets as far as showing a form found that
    form in the registry, as a class that it could instantiate or as an
    object. *)
Lemma select_next_form_inv (s s1 : app) :
  select_next_form s = (Ret tt, s1) ->
  exists name o a f,
    NEXT_ACTIVE_FORM s = Some name /\ _Forms s !! name = Some o /\
    ((exists cls ar k, o = ClassEntry cls ar k /\ cls ar k = Built f /\
        a = length (heap s) /\
        s1 = selected name o a (heap s ++ [set_FORM_NAME (Some name) f]) s) \/
     (o = FormRef a /\ heap s !! a = Some f /\
        s1 = selected name o a (<[a := set_FORM_NAME (Some name) f]> (heap s)) s)).
Proof.
  intros Hrun.
  destruct (NEXT_ACTIVE_FORM s) as [name|] eqn:Hnext.
  2:{ unfold select_next_form in Hrun; munfold. by rewrite Hnext in Hrun. }
  destruct (_Forms s !! name) as [[a|cls ar k]|] eqn:Hreg.
  - destruct (heap s !! a) as [f|] eqn:Hf.
    + rewrite (select_next_form_form_ref s name a f) in Hrun by done.
      exists name, (FormRef a), a, f. repeat split; [|right]; naive_solver.
    + exfalso. revert Hrun.
      destruct s as [h next lastnext forms lastname this active hp tr].
      simpl in *. subst next.
      unfold select_next_form, resolve, Forms_getitem, as_form, deref;
        munfold; simpl.
      repeat (first [rewrite Hreg | rewrite Hf]; simpl). done.
  - destruct (cls ar k) as [f|e] eqn:Hcls.
    + rewrite (select_next_form_class_entry s name cls ar k f) in Hrun by done.
      exists name, (ClassEntry cls ar k), (length (heap s)), f.
      repeat split; [|left]; naive_solver.
    + exfalso. revert Hrun.
      destruct s as [h next lastnext forms lastname this active hp tr].
      simpl in *. subst next.
      unfold select_next_form, resolve, Forms_getitem, construct, as_form;
        munfold; simpl.
      repeat (first [rewrite Hreg | rewrite Hcls]; simpl).
      by destruct (is_TypeError e).
  - by rewrite (select_next_form_unknown s name) in Hrun.
Qed.

#[export] Instance this_kept_preorder : PreOrder this_kept.
Proof.
  split.
  - intros s. by split.
  - intros s1 s2 s3 [H1 H2] [H1' H2']. split; [congruence | lia].
Qed.

Lemma this_kept_do_calls cs : keeps this_kept (do_calls cs).
Proof. intros s. destruct (frame_do_calls cs s) as (_ & ? & ? & _). by split. Qed.

#[export] Hint Resolve this_kept_do_calls : keeps.

Lemma this_kept_activate_this_form calls :
  keeps this_kept (activate_this_form calls;; on_in_main_loop).
Proof. unfold activate_this_form, on_in_main_loop. keeps_solve. Qed.

Lemma bind_Ret_inv {A B} (c : M A) (k : A -> M B) (s s' : app) (b : B) :
  bind c k s = (Ret b, s') ->
  exists a s1, c s = (Ret a, s1) /\ k a s1 = (Ret b, s').
Proof.
  unfold bind. destruct (c s) as [[a|e] s1]; [eauto | done].
Qed.

Lemma loop_body_inv (calls : list call) (s s' : app) :
  loop_body calls s = (Ret tt, s') ->
  exists s1,
    select_next_form s = (Ret tt, s1) /\
    (activate_this_form calls;; on_in_main_loop) s1 = (Ret tt, s') /\
    this_kept s1 s'.
Proof.
  intros Hrun. unfold loop_body in Hrun.
  apply bind_Ret_inv in Hrun as ([] & s1 & Hsel & Hrest).
  exists s1. repeat split; [done.. | |].
  - pose proof (this_kept_activate_this_form calls s1) as H.
    rewrite Hrest in H. apply H.
  - pose proof (this_kept_activate_this_form calls s1) as H.
    rewrite Hrest in H. apply H.
Qed.

(** ** Deferred and persistent registrations *)



(** ** The activation sequence *)

(** The calls on a form up to the point where it takes over. *)
Lemma activate_this_form_run (calls : list call) (s : app) (a : addr) (f : form) :
  _THIS_FORM s = Some (FormRef a) -> heap s !! a = Some f ->
  activate_this_form calls s
  = if has_activate f then
      do_calls calls (set_trace (trace s ++ [ev_resize a; ev_activate a]) s)
    else
      match do_calls calls
              (set_trace
                 (trace s
                  ++ (if has_before_editing f then [ev_before_editing a] else [])
                  ++ [ev_resize a; ev_edit a]) s) with
      | (Ret _, s2) =>
          match heap s2 !! a with
          | Some f2 =>
              (Ret tt,
               if has_after_editing f2
               then set_trace (trace s2 ++ [ev_after_editing a]) s2
               else s2)
          | None => (Raise ReferenceError, s2)
          end
      | (Raise e, s2) => (Raise e, s2)
      end.
Proof.
  intros Ht Hf.
  destruct s as [h next lastnext forms lastname this active hp tr].
  simpl in *. subst this.
  unfold activate_this_form, this_form_has, this_form_call, as_form, deref, log;
    munfold; simpl.
  rewrite Hf; simpl.
  destruct (has_activate f); simpl.
  { unfold set_trace; simpl. by rewrite <- app_assoc. }
  rewrite Hf; simpl.
  destruct (has_before_editing f); simpl;
    unfold set_trace; simpl; rewrite <- ?app_assoc; simpl;
    (match goal with
     | |- context [do_calls calls ?st] =>
         pose proof (frame_do_calls calls st) as (_ & _ & Hthis & _);
         destruct (do_calls calls st) as [[[]|e] s2]
     end; simpl in *; [|done];
     rewrite Hthis; destruct (heap s2 !! a) as [f2|]; simpl; [|done];
     destruct (has_after_editing f2); simpl; rewrite ?Hthis; done).
Qed.

Lemma activation_events_shape (a : addr) (f f2 : form) :
  activation_events a f f2 <> [] /\
  ev_on_in_main_loop ∉ activation_events a f f2.
Proof.
  unfold activation_events.
  destruct (has_activate f), (has_before_editing f), (has_after_editing f2);
    simpl; (split; [done|]);
    rewrite ?elem_of_cons, elem_of_nil; intuition congruence.
Qed.

Lemma activate_this_form_Ret (calls : list call) (s s' : app) (a : addr) (f : form) :
  _THIS_FORM s = Some (FormRef a) -> heap s !! a = Some f ->
  activate_this_form calls s = (Ret tt, s') ->
  exists f2, heap s' !! a = Some f2 /\
             trace s' = trace s ++ activation_events a f f2.
Proof.
  intros Ht Hf Hrun. rewrite (activate_this_form_run calls s a f Ht Hf) in Hrun.
  assert (Ha : a < length (heap s)) by by eapply lookup_lt_Some.
  unfold activation_events. destruct (has_activate f).
  - match type of Hrun with
    | do_calls calls ?st = _ =>
        pose proof (frame_do_calls calls st) as (_ & Hlen & _ & Htr)
    end.
    rewrite Hrun in Hlen, Htr. simpl in *.
    destruct (lookup_lt_is_Some_2 (heap s') a) as [f2 Hf2]; [lia|].
    exists f2. by split.
  - match type of Hrun with
    | context [do_calls calls ?st] =>
        pose proof (frame_do_calls calls st) as (_ & Hlen & _ & Htr);
        destruct (do_calls calls st) as [[[]|e] s2]
    end; simpl in *; [|done].
    destruct (heap s2 !! a) as [f2|] eqn:Hf2; [|done].
    injection Hrun as <-. exists f2.
    destruct (has_after_editing f2); simpl; rewrite ?Hf2, ?Htr;
      (split; [done|]); by rewrite <- ?app_assoc, ?app_nil_r.
Qed.

Lemma loop_body_Ret_trace (calls : list call) (s s' : app) :
  loop_body calls s = (Ret tt, s') ->
  exists a f f2,
    trace s' = trace s ++ activation_events a f f2 ++ [ev_on_in_main_loop].
Proof.
  intros Hrun. apply loop_body_inv in Hrun as (s1 & Hsel & Hrest & _).
  apply bind_Ret_inv in Hrest as ([] & s2 & Hact & Hlog).
  injection Hlog as <-.
  apply select_next_form_inv in Hsel as (name & o & a & f & _ & _ & Hcase).
  assert (_THIS_FORM s1 = Some (FormRef a) /\ trace s1 = trace s /\
          exists g, heap s1 !! a = Some g) as (Ht & Htr & g & Hg).
  { destruct Hcase as [(? & ? & ? & _ & _ & -> & ->)|(_ & Hf & ->)]; simpl.
    - repeat split. eexists. apply lookup_snoc_new.
    - repeat split. eexists. apply list_lookup_insert_eq.
      by eapply lookup_lt_Some. }
  destruct (activate_this_form_Ret calls s1 s2 a g Ht Hg Hact) as (f2 & _ & Htr2).
  exists a, g, f2. simpl. by rewrite Htr2, Htr, <- app_assoc.
Qed.

#[export] Instance only_form_events_preorder : PreOrder only_form_events.
Proof.
  split.
  - intros s. exists []. split; [by rewrite app_nil_r | constructor].
  - intros s1 s2 s3 (t & Ht & Hn) (t' & Ht' & Hn'). exists (t ++ t').
    split; [by rewrite Ht', Ht, <- app_assoc | by apply Forall_app].
Qed.

Lemma only_form_events_quiet (s s' : app) :
  trace s' = trace s -> only_form_events s s'.
Proof.
  intros H. exists []. split; [by rewrite app_nil_r | constructor].
Qed.

Lemma only_form_events_log (e : event) :
  form_event e = true -> keeps only_form_events (log e).
Proof. intros He s. exists [e]. split; [done|]. by repeat constructor. Qed.

Lemma only_form_events_do_calls cs : keeps only_form_events (do_calls cs).
Proof.
  intros s. apply only_form_events_quiet. apply (frame_do_calls cs s).
Qed.

Lemma only_form_events_this_form_call (ev : addr -> event) :
  (forall a, form_event (ev a) = true) ->
  keeps only_form_events (this_form_call ev).
Proof.
  intros Hev. unfold this_form_call. keeps_solve.
  by apply only_form_events_log.
Qed.

#[export] Hint Resolve only_form_events_quiet only_form_events_do_calls
  only_form_events_this_form_call : keeps.

Lemma only_form_events_record_visit name :
  keeps only_form_events (record_visit name).
Proof.
  intros s. rewrite record_visit_run. by apply only_form_events_quiet.
Qed.

#[export] Hint Resolve only_form_events_record_visit : keeps.

Lemma only_form_events_select_next_form :
  keeps only_form_events select_next_form.
Proof. unfold select_next_form. keeps_solve. Qed.

Lemma only_form_events_activate_this_form calls :
  keeps only_form_events (activate_this_form calls).
Proof. unfold activate_this_form. keeps_solve. Qed.

Lemma form_events_no_hook (t : list event) (e : event) :
  Forall (fun e => form_event e = true) t -> form_event e = false -> e ∉ t.
Proof.
  intros Ht He Hin. rewrite Forall_forall in Ht. apply Ht in Hin. congruence.
Qed.

(** A turn of the loop that fails has called neither [on_in_main_loop]
    nor [on_clean_exit]. *)
Lemma loop_body_Raise_trace (calls : list call) (s s' : app) (e : exn) :
  loop_body calls s = (Raise e, s') -> only_form_events s s'.
Proof.
  unfold loop_body, bind. intros Hrun.
  pose proof (only_form_events_select_next_form s) as Hsel.
  destruct (select_next_form s) as [[[]|e1] s1]; simpl in *.
  - pose proof (only_form_events_activate_this_form calls s1) as Hact.
    destruct (activate_this_form calls s1) as [[[]|e2] s2]; simpl in *;
      [done|].
    injection Hrun as _ <-. by etransitivity.
  - by injection Hrun as _ <-.
Qed.

(** The trace of the loop: the turns that completed, each followed by
    one call of [on_in_main_loop], then what the way out adds. *)
Lemma main_loop_trace (script : list (list call)) (s : app) :
  exists (turns : list (list event)) (rest : list event),
    (trace (final_state (main_loop script s))
     = trace s ++ concat (map (fun t => t ++ [ev_on_in_main_loop]) turns) ++ rest) /\
    Forall is_activation turns /\
    (ev_on_in_main_loop ∉ rest) /\
    (forall s', main_loop script s = Finished s' -> rest = [ev_on_clean_exit]).
Proof.
  assert (Hexit : ev_on_in_main_loop ∉ [ev_on_clean_exit]).
  { rewrite elem_of_cons, elem_of_nil. intuition congruence. }
  revert s. induction script as [|calls script IH]; intros s; simpl.
  - exists []. destruct (loop_condition s); simpl.
    + exists []. rewrite app_nil_r.
      split_and!; [done | done | apply not_elem_of_nil | done].
    + exists [ev_on_clean_exit]. split_and!; [done | done | done |].
      by intros s' _.
  - destruct (loop_condition s); simpl.
    2:{ exists [], [ev_on_clean_exit]. split_and!; [done | done | done |].
        by intros s' _. }
    destruct (loop_body calls s) as [[[]|e] s1] eqn:Hbody.
    + destruct (loop_body_Ret_trace calls s s1 Hbody) as (a & f & f2 & Htr).
      destruct (IH s1) as (turns & rest & Htr1 & Hturns & Hrest & Hfin).
      exists (activation_events a f f2 :: turns), rest.
      split_and!; [| | done | done].
      * rewrite Htr1, Htr. simpl. by rewrite <- !app_assoc.
      * constructor; [by exists a, f, f2 | done].
    + destruct (loop_body_Raise_trace calls s s1 e Hbody) as (t & Htr & Ht).
      exists [], t. simpl. split_and!; [done | done | | done].
      by apply (form_events_no_hook t).
Qed.

(** C6.  A form with an [activate] method is resized and activated, and
    neither editing hook is called; a form without one gets
    [before_editing] if it has that method, then [resize] and [edit], then
    [after_editing] if it has that method, in that order.  Every turn of
    the loop that completes is followed by exactly one call of
    [on_in_main_loop], which is called nowhere else: in a run of [main]
    the trace is [on_start], the completed turns each followed by the
    hook, and then what the way out adds ([on_clean_exit] when the loop
    exits), so the hook never precedes the first form. *)
Theorem activation_sequence :
  (forall calls s s' a f,
     _THIS_FORM s = Some (FormRef a) -> heap s !! a = Some f ->
     activate_this_form calls s = (Ret tt, s') ->
     exists f2,
       heap s' !! a = Some f2 /\
       (has_activate f = true ->
          trace s' = trace s ++ [ev_resize a; ev_activate a]) /\
       (has_activate f = false ->
          trace s' = trace s
                     ++ (if has_before_editing f then [ev_before_editing a] else [])
                     ++ [ev_resize a; ev_edit a]
                     ++ (if has_after_editing f2 then [ev_after_editing a] else []))) /\
  (forall calls s s',
     loop_body calls s = (Ret tt, s') ->
     exists a f f2,
       trace s' = trace s ++ activation_events a f f2 ++ [ev_on_in_main_loop]) /\
  (forall a f f2,
     activation_events a f f2 <> [] /\
     ev_on_in_main_loop ∉ activation_events a f f2) /\
  (forall script s,
     exists (turns : list (list event)) (rest : list event),
       (trace (final_state (main script s))
        = trace s ++ [ev_on_start]
          ++ concat (map (fun t => t ++ [ev_on_in_main_loop]) turns) ++ rest) /\
       Forall is_activation turns /\
       (ev_on_in_main_loop ∉ rest) /\
       (forall s', main script s = Finished s' -> rest = [ev_on_clean_exit])).
Proof.
  split; [|split; [|split]].
  - intros calls s s' a f Ht Hf Hrun.
    destruct (activate_this_form_Ret calls s s' a f Ht Hf Hrun) as (f2 & Hf2 & Htr).
    exists f2. unfold activation_events in Htr.
    split; [done|]. split; intros Hact; by rewrite Hact in Htr.
  - apply loop_body_Ret_trace.
  - apply activation_events_shape.
  - intros script s. unfold main.
    destruct (main_loop_trace script (on_start s))
      as (turns & rest & Htr & Hturns & Hrest & Hfin).
    exists turns, rest. split_and!; [| done..].
    rewrite Htr. simpl. by rewrite <- app_assoc.
Qed.

Lemma activation_sequence_witness :
  exists f2,
    heap (activate_this_form [c_set_next_form None] on_SECOND).2 !! 1 = Some f2 /\
    trace (activate_this_form [c_set_next_form None] on_SECOND).2
    = trace on_SECOND ++ [ev_resize 1; ev_edit 1]
      ++ (if has_after_editing f2 then [ev_after_editing 1] else []).
Proof.
  edestruct (fun f =>
    proj1 activation_sequence [c_set_next_form None] on_SECOND
      (activate_this_form [c_set_next_form None] on_SECOND).2 1 f)
    as (f2 & Hf2 & _ & Hedit);
    [vm_compute; reflexivity | vm_compute; reflexivity
    | vm_compute; reflexivity |].
  exists f2. split; [done|]. exact (Hedit eq_refl).
Defined.

(** ** Leaving the loop *)

Lemma loop_condition_false (s : app) :
  loop_condition s = false <-> is_stop (NEXT_ACTIVE_FORM s).
Proof.
  unfold loop_condition, is_stop. destruct (NEXT_ACTIVE_FORM s) as [name|].
  - rewrite bool_decide_eq_false. split.
    + intros H. right. f_equal. by destruct (decide (name = "")).
    + intros [?|[= ->]]; [done | tauto].
  - tauto.
Qed.

Lemma loop_condition_true (s : app) :
  loop_condition s = true ->
  exists name, NEXT_ACTIVE_FORM s = Some name /\ name <> "".
Proof.
  unfold loop_condition. destruct (NEXT_ACTIVE_FORM s) as [name|]; [|done].
  rewrite bool_decide_eq_true. eauto.
Qed.

Lemma main_loop_stop (script : list (list call)) (s : app) :
  is_stop (NEXT_ACTIVE_FORM s) ->
  main_loop script s = Finished (on_clean_exit s).
Proof.
  intros Hstop%loop_condition_false. destruct script; simpl; by rewrite Hstop.
Qed.

Lemma resolvable_later (s s1 : app) (name : string) :
  _Forms s1 = _Forms s -> length (heap s) <= length (heap s1) ->
  resolvable s name -> resolvable s1 name.
Proof.
  unfold resolvable. intros -> Hlen.
  destruct (_Forms s !! name) as [[a|cls ar k]|]; [lia | done | done].
Qed.

(** A form that can be shown is shown. *)
Lemma select_next_form_resolvable (s : app) (name : string) :
  NEXT_ACTIVE_FORM s = Some name -> resolvable s name ->
  exists o a hp f,
    select_next_form s = (Ret tt, selected name o a hp s) /\
    hp !! a = Some f /\ length (heap s) <= length hp.
Proof.
  unfold resolvable. intros Hnext Hres.
  destruct (_Forms s !! name) as [[a|cls ar k]|] eqn:Hreg; [| |done].
  - destruct (lookup_lt_is_Some_2 (heap s) a Hres) as [f Hf].
    exists (FormRef a), a, (<[a := set_FORM_NAME (Some name) f]> (heap s)),
      (set_FORM_NAME (Some name) f).
    split_and!.
    + by apply select_next_form_form_ref.
    + by apply list_lookup_insert_eq.
    + by rewrite length_insert.
  - destruct Hres as [f Hcls].
    exists (ClassEntry cls ar k), (length (heap s)),
      (heap s ++ [set_FORM_NAME (Some name) f]), (set_FORM_NAME (Some name) f).
    split_and!.
    + by apply select_next_form_class_entry.
    + apply lookup_snoc_new.
    + rewrite length_app. lia.
Qed.

(** Requests for a next form: the last one stands. *)
Lemma do_calls_requests (ids : list ident) (s : app) :
  do_calls (map c_set_next_form ids) s
  = (Ret tt,
     set_NEXT_ACTIVE_FORM (default (NEXT_ACTIVE_FORM s) (last ids)) s).
Proof.
  revert s. induction ids as [|i ids IH]; intros s; simpl.
  - by destruct s.
  - unfold bind, set_next_form, modify. rewrite IH. simpl.
    rewrite last_cons. by destruct (last ids).
Qed.

Lemma clean_exit_not_in_turn (a : addr) (f f2 : form) :
  ev_on_clean_exit ∉ activation_events a f f2 ++ [ev_on_in_main_loop].
Proof.
  unfold activation_events.
  destruct (has_activate f), (has_before_editing f), (has_after_editing f2);
    simpl; rewrite ?elem_of_cons, elem_of_nil; intuition congruence.
Qed.

Lemma loop_body_requests (ids : list ident) (s : app) (name : string) :
  NEXT_ACTIVE_FORM s = Some name -> resolvable s name ->
  exists s1 t,
    loop_body (map c_set_next_form ids) s = (Ret tt, s1) /\
    NEXT_ACTIVE_FORM s1 = default (NEXT_ACTIVE_FORM s) (last ids) /\
    _Forms s1 = _Forms s /\ length (heap s) <= length (heap s1) /\
    trace s1 = trace s ++ t /\ ev_on_clean_exit ∉ t.
Proof.
  intros Hnext Hres.
  destruct (select_next_form_resolvable s name Hnext Hres)
    as (o & a & hp & f & Hsel & Hf & Hlen).
  assert (exists s1, loop_body (map c_set_next_form ids) s = (Ret tt, s1) /\
            NEXT_ACTIVE_FORM s1 = default (NEXT_ACTIVE_FORM s) (last ids) /\
            _Forms s1 = _Forms s /\ heap s1 = hp) as (s1 & Hrun & ? & ? & Hhp).
  { unfold loop_body, bind at 1. rewrite Hsel.
    unfold bind at 1.
    rewrite (activate_this_form_run _ (selected name o a hp s) a f) by done.
    rewrite !do_calls_requests. simpl. rewrite Hf.
    destruct (has_activate f), (has_after_editing f); simpl;
      eexists; (split; [reflexivity|]); by simpl. }
  destruct (loop_body_Ret_trace _ s s1 Hrun) as (a' & f' & f2 & Htr).
  exists s1, (activation_events a' f' f2 ++ [ev_on_in_main_loop]).
  split_and!; [done | done | done | by rewrite Hhp | done |].
  apply clean_exit_not_in_turn.
Qed.

Lemma main_loop_requests (reqs : list (list ident)) (s : app) :
  (forall name, NEXT_ACTIVE_FORM s = Some name -> name <> "" ->
                resolvable s name) ->
  (forall name, Some name ∈ concat reqs -> name <> "" -> resolvable s name) ->
  is_stop (default (NEXT_ACTIVE_FORM s) (last (concat reqs))) ->
  exists s' t,
    main_loop (map (map c_set_next_form) reqs) s = Finished s' /\
    trace s' = trace s ++ t ++ [ev_on_clean_exit] /\
    ev_on_clean_exit ∉ t.
Proof.
  revert s. induction reqs as [|ids reqs IH]; intros s Hnow Hall Hstop.
  - simpl in Hstop. rewrite (main_loop_stop _ s Hstop).
    exists (on_clean_exit s), []. split_and!; [done | done |].
    apply not_elem_of_nil.
  - destruct (loop_condition s) eqn:Hcond.
    2:{ apply loop_condition_false in Hcond.
        rewrite (main_loop_stop _ s Hcond).
        exists (on_clean_exit s), []. split_and!; [done | done |].
        apply not_elem_of_nil. }
    simpl. rewrite Hcond.
    destruct (loop_condition_true s Hcond) as (name & Hnext & Hne).
    destruct (loop_body_requests ids s name Hnext (Hnow name Hnext Hne))
      as (s1 & t & Hrun & Hnext1 & Hforms & Hheap & Htr & Ht).
    rewrite Hrun.
    destruct (IH s1) as (s' & t' & Hrun' & Htr' & Ht').
    + intros n Hn Hnne. apply (resolvable_later s); [done.. |].
      rewrite Hnext1 in Hn. destruct (last ids) as [i|] eqn:Hlast; simpl in Hn.
      * apply Hall; [|done]. simpl. rewrite elem_of_app. left.
        subst i. by apply last_Some_elem_of.
      * by apply Hnow.
    + intros n Hn Hnne. apply (resolvable_later s); [done.. |].
      apply Hall; [|done]. simpl. rewrite elem_of_app. by right.
    + simpl in Hstop. rewrite last_app in Hstop. rewrite Hnext1.
      destruct (last (concat reqs)); [done|]. simpl in *.
      by destruct (last ids).
    + exists s', (t ++ t'). split_and!; [done | |].
      * by rewrite Htr', Htr, <- !app_assoc.
      * rewrite elem_of_app. tauto.
Qed.

(** After a turn in which the form only requested next forms, the last
    request stands, whatever was shown. *)
Lemma loop_body_requests_next (ids : list ident) (s s1 : app) :
  loop_body (map c_set_next_form ids) s = (Ret tt, s1) ->
  NEXT_ACTIVE_FORM s1 = default (NEXT_ACTIVE_FORM s) (last ids).
Proof.
  intros Hrun. apply loop_body_inv in Hrun as (t & Hsel & Hrest & _).
  apply bind_Ret_inv in Hrest as ([] & s2 & Hact & Hlog).
  injection Hlog as <-.
  apply select_next_form_inv in Hsel as (name & o & a & f & _ & _ & Hcase).
  assert (_THIS_FORM t = Some (FormRef a) /\
          NEXT_ACTIVE_FORM t = NEXT_ACTIVE_FORM s /\
          exists g, heap t !! a = Some g) as (Ht & Hnext & g & Hg).
  { destruct Hcase as [(? & ? & ? & _ & _ & -> & ->)|(_ & Hf & ->)]; simpl.
    - split_and!; [done | done |]. eexists. apply lookup_snoc_new.
    - split_and!; [done | done |]. eexists. apply list_lookup_insert_eq.
      by eapply lookup_lt_Some. }
  rewrite (activate_this_form_run _ t a g Ht Hg) in Hact.
  rewrite !do_calls_requests in Hact. simpl in Hact.
  destruct (has_activate g).
  - injection Hact as <-. simpl. by rewrite Hnext.
  - destruct (heap t !! a) as [f2|]; [|done].
    injection Hact as <-. rewrite <- Hnext. by destruct (has_after_editing f2).
Qed.

(** Once the last request is a stop value, the loop asks for no more. *)
Lemma main_loop_requests_not_starved (reqs : list (list ident)) (s : app) :
  is_stop (default (NEXT_ACTIVE_FORM s) (last (concat reqs))) ->
  forall s', main_loop (map (map c_set_next_form) reqs) s <> Starved s'.
Proof.
  revert s. induction reqs as [|ids reqs IH]; intros s Hstop s'.
  - simpl in Hstop. by rewrite (main_loop_stop _ s Hstop).
  - simpl. destruct (loop_condition s); [|done].
    destruct (loop_body (map c_set_next_form ids) s) as [[[]|e] s1] eqn:Hrun;
      [|done].
    apply IH. rewrite (loop_body_requests_next ids s s1 Hrun).
    simpl in Hstop. rewrite last_app in Hstop.
    destruct (last (concat reqs)); [done|]. simpl in *.
    by destruct (last ids).
Qed.

Lemma clean_exit_not_in_turns (turns : list (list event)) :
  Forall is_activation turns ->
  ev_on_clean_exit ∉ concat (map (fun t => t ++ [ev_on_in_main_loop]) turns).
Proof.
  induction 1 as [|t turns (a & f & f2 & ->) _ IH]; simpl.
  - apply not_elem_of_nil.
  - rewrite elem_of_app. intros [Hin|Hin]; [|done].
    by apply (clean_exit_not_in_turn a f f2).
Qed.

(** A run that leaves the loop has called [on_clean_exit] once, last. *)
Lemma main_loop_Finished_trace (script : list (list call)) (s s' : app) :
  main_loop script s = Finished s' ->
  exists t, trace s' = trace s ++ t ++ [ev_on_clean_exit] /\
            ev_on_clean_exit ∉ t.
Proof.
  intros Hrun.
  destruct (main_loop_trace script s) as (turns & rest & Htr & Hturns & _ & Hfin).
  rewrite (Hfin s' Hrun) in Htr. rewrite Hrun in Htr. simpl in Htr.
  eexists. split; [exact Htr|]. by apply clean_exit_not_in_turns.
Qed.

(** C4.  Forms that only request a next form ([set_next_form]) and the
    last request is a stop value: the loop never waits for a form beyond
    those requests, so [main] ends; when it returns it has called
    [on_clean_exit] once, as the last thing it did; and it does return
    when every requested form can be shown (an unknown name in between
    ends the run with KeyError instead). *)
Theorem main_terminates_on_stop_request
    (reqs : list (list ident)) (s : app) (stop : ident) :
  is_stop stop ->
  last (concat reqs) = Some stop ->
  (forall s', main (map (map c_set_next_form) reqs) s <> Starved s') /\
  (forall s', main (map (map c_set_next_form) reqs) s = Finished s' ->
     exists t, trace s' = trace s ++ t ++ [ev_on_clean_exit] /\
               ev_on_clean_exit ∉ t) /\
  ((forall name, NEXT_ACTIVE_FORM s = Some name -> name <> "" ->
                 resolvable s name) ->
   (forall name, Some name ∈ concat reqs -> name <> "" -> resolvable s name) ->
   exists s', main (map (map c_set_next_form) reqs) s = Finished s').
Proof.
  intros Hstop Hlast. unfold main. split_and!.
  - apply main_loop_requests_not_starved. simpl. by rewrite Hlast.
  - intros s' Hrun.
    destruct (main_loop_Finished_trace _ _ _ Hrun) as (t & Htr & Ht).
    exists ([ev_on_start] ++ t). split.
    + rewrite Htr. simpl. by rewrite <- app_assoc.
    + rewrite elem_of_app, elem_of_cons, elem_of_nil. intuition congruence.
  - intros Hnow Hall.
    destruct (main_loop_requests reqs (on_start s)) as (s' & t & Hrun & _).
    + exact Hnow.
    + exact Hall.
    + simpl. by rewrite Hlast.
    + by exists s'.
Qed.

Lemma main_terminates_on_stop_request_witness :
  exists s',
    main (map (map c_set_next_form)
            [[Some "SECOND"]; [Some "THIRD"]; [Some "MAIN"; None]]) MyTestApp
    = Finished s'.
Proof.
  apply (main_terminates_on_stop_request
           [[Some "SECOND"]; [Some "THIRD"]; [Some "MAIN"; None]]
           MyTestApp None).
  - by left.
  - reflexivity.
  - intros name [= <-] _. vm_compute. lia.
  - intros name Hin Hne. simpl in Hin.
    rewrite !elem_of_cons, elem_of_nil in Hin.
    destruct Hin as [[= ->]|[[= ->]|[[= ->]|[[=]|[]]]]]; vm_compute;
      [lia | by eexists | lia].
Defined.

Lemma do_calls_snoc_request (calls : list call) (x : ident) (s s2 : app) :
  do_calls calls s = (Ret tt, s2) ->
  do_calls (calls ++ [c_set_next_form x]) s
  = (Ret tt, set_NEXT_ACTIVE_FORM x s2).
Proof.
  revert s. induction calls as [|c calls IH]; intros s; simpl.
  - by intros [= <-].
  - unfold bind. destruct (do_call c s) as [[[]|e] s']; [apply IH | done].
Qed.

(** A request for a next form, made last, changes nothing else in a
    turn of the loop. *)
Lemma loop_body_snoc_request (calls : list call) (x : ident) (s s1 : app) :
  loop_body calls s = (Ret tt, s1) ->
  loop_body (calls ++ [c_set_next_form x]) s
  = (Ret tt, set_NEXT_ACTIVE_FORM x s1).
Proof.
  intros Hrun. apply loop_body_inv in Hrun as (t & Hsel & Hrest & _).
  apply bind_Ret_inv in Hrest as ([] & s2 & Hact & Hlog).
  injection Hlog as <-.
  pose proof Hsel as Hsel'.
  apply select_next_form_inv in Hsel' as (name & o & a & f & _ & _ & Hcase).
  assert (_THIS_FORM t = Some (FormRef a) /\ exists g, heap t !! a = Some g)
    as (Ht & g & Hg).
  { destruct Hcase as [(? & ? & ? & _ & _ & -> & ->)|(_ & Hf & ->)]; simpl.
    - split; [done|]. eexists. apply lookup_snoc_new.
    - split; [done|]. eexists. apply list_lookup_insert_eq.
      by eapply lookup_lt_Some. }
  unfold loop_body, bind at 1. rewrite Hsel. unfold bind at 1.
  rewrite (activate_this_form_run calls t a g Ht Hg) in Hact.
  rewrite (activate_this_form_run _ t a g Ht Hg).
  destruct (has_activate g).
  - by rewrite (do_calls_snoc_request calls x _ s2 Hact).
  - match type of Hact with
    | context [do_calls calls ?st] =>
        destruct (do_calls calls st) as [[[]|e] s2'] eqn:Hcalls
    end; [|done].
    rewrite (do_calls_snoc_request calls x _ s2' Hcalls).
    change (heap (set_NEXT_ACTIVE_FORM x s2')) with (heap s2').
    destruct (heap s2' !! a) as [f2|]; [|done].
    injection Hact as <-. by destruct (has_after_editing f2).
Qed.

(** C9.  The loop runs while [NEXT_ACTIVE_FORM] is neither [None] nor
    the empty string: with either value [main] leaves the loop and calls
    [on_clean_exit], and a form that asks for the empty string as its
    last call ends the run in the state that asking for [None] gives, but
    for the value of [NEXT_ACTIVE_FORM] itself. *)
Theorem empty_string_stops_the_loop :
  (forall s,
     loop_condition s = false <->
     NEXT_ACTIVE_FORM s = None \/ NEXT_ACTIVE_FORM s = Some "") /\
  (forall script s,
     NEXT_ACTIVE_FORM s = None \/ NEXT_ACTIVE_FORM s = Some "" ->
     main_loop script s = Finished (on_clean_exit s)) /\
  (forall calls rest s s1 stop,
     stop = None \/ stop = Some "" ->
     loop_condition s = true ->
     loop_body calls s = (Ret tt, s1) ->
     main_loop ((calls ++ [c_set_next_form stop]) :: rest) s
     = Finished (on_clean_exit (set_NEXT_ACTIVE_FORM stop s1))).
Proof.
  split_and!.
  - apply loop_condition_false.
  - apply main_loop_stop.
  - intros calls rest s s1 stop Hstop Hcond Hrun. simpl. rewrite Hcond.
    rewrite (loop_body_snoc_request calls stop s s1 Hrun).
    by apply main_loop_stop.
Qed.

Lemma empty_string_stops_the_loop_witness :
  main_loop [[c_set_next_form (Some "SECOND")]]
    (set_NEXT_ACTIVE_FORM (Some "") MyTestApp)
  = Finished (on_clean_exit (set_NEXT_ACTIVE_FORM (Some "") MyTestApp)).
Proof.
  apply (proj1 (proj2 empty_string_stops_the_loop)).
  right. reflexivity.
Defined.

(** ** Removing a registration *)

Lemma remove_form_form_ref (s : app) (form_id : string) (a : addr) (f : form) :
  _Forms s !! form_id = Some (FormRef a) -> heap s !! a = Some f ->
  parentApp f = true ->
  remove_form form_id s
  = (Ret tt, set_Forms (delete form_id (_Forms s))
               (set_heap (<[a := set_parentApp false f]> (heap s)) s)).
Proof.
  intros Hreg Hf Hp.
  destruct s as [h next lastnext forms lastname this active hp tr].
  simpl in *.
  unfold remove_form, Forms_getitem, as_form, deref, store; munfold; simpl.
  rewrite Hreg; simpl. rewrite Hf; simpl. rewrite Hp; simpl.
  by rewrite Hreg.
Qed.

Lemma remove_form_class_entry (s : app) (form_id : string) cls ar k :
  _Forms s !! form_id = Some (ClassEntry cls ar k) ->
  remove_form form_id s = (Raise AttributeError, s).
Proof.
  intros Hreg. unfold remove_form, Forms_getitem, as_form; munfold.
  by rewrite Hreg.
Qed.

Lemma remove_form_unknown (s : app) (form_id : string) :
  _Forms s !! form_id = None -> remove_form form_id s = (Raise KeyError, s).
Proof.
  intros Hreg. unfold remove_form, Forms_getitem; munfold. by rewrite Hreg.
Qed.

(** A form object that is removed is gone from the registry: the loop
    cannot show it any more, as it cannot show a name that was never
    registered. *)
Lemma remove_form_then_unknown (s : app) (form_id : string) (a : addr) (f : form) :
  _Forms s !! form_id = Some (FormRef a) -> heap s !! a = Some f ->
  parentApp f = true ->
  exists s1,
    remove_form form_id s = (Ret tt, s1) /\
    _Forms s1 !! form_id = None /\
    select_next_form (set_NEXT_ACTIVE_FORM (Some form_id) s1)
    = (Raise KeyError, set_NEXT_ACTIVE_FORM (Some form_id) s1).
Proof.
  intros Hreg Hf Hp. eexists. split.
  { by apply (remove_form_form_ref s form_id a f). }
  simpl. split; [apply lookup_delete_eq|].
  apply (select_next_form_unknown _ form_id); [done|]. apply lookup_delete_eq.
Qed.

(** C7.  [remove_form] on an entry stored by [add_form_class]: the list
    [[form_class, args, keywords]] has no [parentApp] attribute, the first
    [del] raises AttributeError, the registry is left as it was and the
    loop still shows the form. *)
Theorem remove_form_keeps_class_entries :
  _Forms MyTestApp !! "THIRD"
  = Some (ClassEntry MainForm [] [("name", VStr "Screen 3")]) /\
  remove_form "THIRD" MyTestApp = (Raise AttributeError, MyTestApp) /\
  exists s1,
    select_next_form (set_NEXT_ACTIVE_FORM (Some "THIRD") MyTestApp)
    = (Ret tt, s1).
Proof.
  assert (Hreg : _Forms MyTestApp !! "THIRD"
                 = Some (ClassEntry MainForm [] [("name", VStr "Screen 3")]))
    by (vm_compute; reflexivity).
  split_and!; [done | by eapply remove_form_class_entry |].
  eexists.
  by eapply (select_next_form_class_entry
               (set_NEXT_ACTIVE_FORM (Some "THIRD") MyTestApp) "THIRD").
Qed.

(** ** The single-selection list *)

Lemma SelectOne_update_outcome
    (clear : SelectOne.t -> SelectOne.t)
    (MultiLine_update : bool -> SelectOne.t -> SelectOne.t)
    (clear_arg : bool) (w : SelectOne.t) :
  SelectOne.hidden w = false ->
  exists v' : pyvalue,
    SelectOne.update clear MultiLine_update clear_arg w
    = (None, MultiLine_update clear_arg (SelectOne.set_value v' w)) /\
    has_append v' = true /\
    (SelectOne.value w = VNone -> v' = VList []) /\
    (has_append (SelectOne.value w) = false -> SelectOne.value w <> VNone ->
       v' = VList [SelectOne.value w]) /\
    (has_append (SelectOne.value w) = true -> v' = SelectOne.value w).
Proof.
  intros Hshown. unfold SelectOne.update. rewrite Hshown.
  destruct w as [hid v cur]. simpl in *.
  destruct v; simpl; eexists; (split; [reflexivity|]); by split_and!.
Qed.

(** C8.  [SelectOne.update] on a widget that is not hidden hands the
    drawing to [MultiLine.update] with [value] made a list: a value with
    an [append] method is kept, [None] becomes the empty list, any other
    value [v] becomes [[v]].  The other attributes are as they were. *)
Theorem SelectOne_update_normalizes_value
    (clear : SelectOne.t -> SelectOne.t)
    (MultiLine_update : bool -> SelectOne.t -> SelectOne.t)
    (clear_arg : bool) (w : SelectOne.t) :
  SelectOne.hidden w = false ->
  exists w1 : SelectOne.t,
    SelectOne.update clear MultiLine_update clear_arg w
    = (None, MultiLine_update clear_arg w1) /\
    has_append (SelectOne.value w1) = true /\
    (SelectOne.value w = VNone -> SelectOne.value w1 = VList []) /\
    (has_append (SelectOne.value w) = false -> SelectOne.value w <> VNone ->
       SelectOne.value w1 = VList [SelectOne.value w]) /\
    (has_append (SelectOne.value w) = true ->
       SelectOne.value w1 = SelectOne.value w) /\
    SelectOne.hidden w1 = false /\
    SelectOne.cursor_line w1 = SelectOne.cursor_line w.
Proof.
  intros Hshown.
  destruct (SelectOne_update_outcome clear MultiLine_update clear_arg w Hshown)
    as (v' & Hrun & Hlist & Hnone & Hwrap & Hkeep).
  exists (SelectOne.set_value v' w). simpl. by split_and!.
Qed.

Lemma SelectOne_update_normalizes_value_witness :
  exists w1 : SelectOne.t,
    SelectOne.update (fun w => w) (fun _ w => w) true
      (SelectOne.Make false (VInt 3) 0)
    = (None, w1) /\
    SelectOne.value w1 = VList [VInt 3].
Proof.
  destruct (SelectOne_update_normalizes_value (fun w => w) (fun _ w => w) true
              (SelectOne.Make false (VInt 3) 0) eq_refl)
    as (w1 & Hrun & _ & _ & Hwrap & _).
  exists w1. split; [exact Hrun|]. by apply Hwrap.
Defined.

(** * Further properties *)

(** ** The registry *)

Lemma register_form_run (s : app) (form_id : string) (a : addr) (f : form) :
  heap s !! a = Some f ->
  register_form form_id a s
  = (Ret tt, set_Forms (<[form_id := FormRef a]> (_Forms s))
               (set_heap (<[a := set_parentApp true f]> (heap s)) s)).
Proof.
  intros Hf. destruct s as [h next lastnext forms lastname this active hp tr].
  simpl in *. unfold register_form, deref, store; munfold; simpl.
  by rewrite Hf.
Qed.

Lemma get_form_run (s : app) (name : string) (a : addr) :
  _Forms s !! name = Some (FormRef a) -> get_form name s = (Ret a, s).
Proof.
  intros Hreg. unfold get_form, Forms_getitem; munfold. by rewrite Hreg.
Qed.



Lemma add_form_run (s : app) (form_id : string) cls ar k (f : form) :
  cls ar k = Built f ->
  add_form form_id cls ar k s
  = (Ret (length (heap s)),
     set_Forms (<[form_id := FormRef (length (heap s))]> (_Forms s))
       (set_heap (heap s ++ [set_parentApp true f]) s)).
Proof.
  intros Hcls. destruct s as [h next lastnext forms lastname this active hp tr].
  unfold add_form, construct, alloc, register_form, deref, store;
    munfold; simpl.
  rewrite Hcls; simpl. rewrite lookup_snoc_new; simpl.
  by rewrite insert_snoc_new.
Qed.



(** X3.  [add_form_class] calls nothing: the class is stored with its
    arguments and no object is created, so a constructor that raises is
    found out only when the form is due, where the exception leaves the
    loop (a TypeError as an AttributeError). *)
Theorem add_form_class_defers_the_constructor
    (s : app) (form_id : string) cls ar k (e : exn) :
  cls ar k = CtorRaises e ->
  exists s1,
    add_form_class form_id cls ar k s = (Ret tt, s1) /\
    heap s1 = heap s /\
    _Forms s1 !! form_id = Some (ClassEntry cls ar k) /\
    (select_next_form (set_NEXT_ACTIVE_FORM (Some form_id) s1)).1
    = Raise (if is_TypeError e then AttributeError else e).
Proof.
  intros Hcls. eexists. split; [reflexivity|]. simpl.
  split_and!; [done | apply lookup_insert_eq |].
  apply (select_next_form_constructor_raises _ form_id cls ar k);
    [done | apply lookup_insert_eq | done].
Qed.

Lemma add_form_class_defers_the_constructor_witness :
  exists s1,
    add_form_class "BROKEN" (fun _ _ => CtorRaises TypeError) [] [] MyTestApp
    = (Ret tt, s1) /\
    (select_next_form (set_NEXT_ACTIVE_FORM (Some "BROKEN") s1)).1
    = Raise AttributeError.
Proof.
  destruct (add_form_class_defers_the_constructor MyTestApp "BROKEN"
              (fun _ _ => CtorRaises TypeError) [] [] TypeError eq_refl)
    as (s1 & Hrun & _ & _ & Hshow).
  exists s1. split; [exact Hrun | exact Hshow].
Defined.

(** X4.  One object registered under two identifiers: removing the
    first binding deletes the object's [parentApp], so removing the
    second raises AttributeError and leaves that binding in place. *)
Theorem remove_form_of_an_object_registered_twice
    (s : app) (id1 id2 : string) (a : addr) (f : form) :
  id1 <> id2 -> heap s !! a = Some f ->
  exists s2 s3,
    (register_form id1 a ;; register_form id2 a) s = (Ret tt, s2) /\
    remove_form id1 s2 = (Ret tt, s3) /\
    remove_form id2 s3 = (Raise AttributeError, s3) /\
    _Forms s3 !! id1 = None /\
    _Forms s3 !! id2 = Some (FormRef a).
Proof.
  intros Hne Hf.
  assert (Ha : a < length (heap s)) by by eapply lookup_lt_Some.
  eexists _, _. split_and!.
  - unfold bind. rewrite (register_form_run s id1 a f Hf).
    apply register_form_run. simpl. by apply list_lookup_insert_eq.
  - apply (remove_form_form_ref _ id1 a (set_parentApp true (set_parentApp true f))).
    + simpl. rewrite lookup_insert_ne by done. apply lookup_insert_eq.
    + simpl. apply list_lookup_insert_eq. by rewrite length_insert.
    + done.
  - destruct s as [h next lastnext forms lastname this active hp tr].
    simpl in *.
    unfold remove_form, Forms_getitem, as_form, deref; munfold; simpl.
    rewrite lookup_delete_ne by done. rewrite lookup_insert_eq. simpl.
    rewrite list_lookup_insert_eq by (by rewrite !length_insert). by simpl.
  - simpl. apply lookup_delete_eq.
  - simpl. rewrite lookup_delete_ne by done. apply lookup_insert_eq.
Qed.

Lemma remove_form_of_an_object_registered_twice_witness :
  exists s2 s3,
    (register_form "ONE" 0 ;; register_form "TWO" 0) MyTestApp = (Ret tt, s2) /\
    remove_form "ONE" s2 = (Ret tt, s3) /\
    remove_form "TWO" s3 = (Raise AttributeError, s3).
Proof.
  edestruct (fun f =>
    remove_form_of_an_object_registered_twice MyTestApp "ONE" "TWO" 0 f)
    as (s2 & s3 & H1 & H2 & H3 & _); [done | vm_compute; reflexivity |].
  exists s2, s3. by split_and!.
Defined.

(** X5.  Registering a class instance under a fresh identifier and
    removing it again restores the registry: the identifier is unknown
    again, and the forms there were, the history and the next form are as
    they were. *)
Theorem add_form_then_remove_form
    (s : app) (form_id : string) cls ar k (f : form) :
  _Forms s !! form_id = None -> cls ar k = Built f ->
  exists a s1 s2,
    add_form form_id cls ar k s = (Ret a, s1) /\
    remove_form form_id s1 = (Ret tt, s2) /\
    _Forms s2 = _Forms s /\
    get_form form_id s2 = (Raise KeyError, s2) /\
    (forall b f0, heap s !! b = Some f0 -> heap s2 !! b = Some f0) /\
    _FORM_VISIT_LIST s2 = _FORM_VISIT_LIST s /\
    NEXT_ACTIVE_FORM s2 = NEXT_ACTIVE_FORM s.
Proof.
  intros Hfresh Hcls. eexists _, _, _.
  split; [by apply add_form_run|].
  split.
  { apply (remove_form_form_ref _ form_id (length (heap s))
             (set_parentApp true f)).
    - simpl. apply lookup_insert_eq.
    - simpl. apply lookup_snoc_new.
    - done. }
  simpl. split_and!.
  - by apply delete_insert_id.
  - unfold get_form, Forms_getitem; munfold; simpl.
    by rewrite lookup_delete_eq.
  - intros b f0 Hb. rewrite insert_snoc_new.
    by apply lookup_app_l_Some.
  - done.
  - done.
Qed.

Lemma add_form_then_remove_form_witness :
  exists a s1 s2,
    add_form "FOURTH" MainForm [] [] MyTestApp = (Ret a, s1) /\
    remove_form "FOURTH" s1 = (Ret tt, s2) /\
    _Forms s2 = _Forms MyTestApp /\
    get_form "FOURTH" s2 = (Raise KeyError, s2).
Proof.
  edestruct (fun f =>
    add_form_then_remove_form MyTestApp "FOURTH" MainForm [] [] f)
    as (a & s1 & s2 & H1 & H2 & H3 & H4 & _);
    [vm_compute; reflexivity | reflexivity |].
  exists a, s1, s2. by split_and!.
Defined.

(** ** Before the loop has shown a form *)

(** X6.  With no current form ([_THIS_FORM] is [None], as before [main]
    has shown one) [switch_form], [switch_form_now],
    [set_next_form_previous] and [switch_form_previous] raise
    AttributeError and change nothing: [switch_form] does not even record
    the form it was asked for. *)
Theorem navigation_needs_a_current_form
    (s : app) (form_id backup : ident) :
  _THIS_FORM s = None ->
  switch_form form_id s = (Raise AttributeError, s) /\
  switch_form_now s = (Raise AttributeError, s) /\
  set_next_form_previous backup s = (Raise AttributeError, s) /\
  switch_form_previous s = (Raise AttributeError, s).
Proof.
  intros Ht.
  unfold switch_form, switch_form_previous, set_next_form_previous,
    switch_form_now, this_form_stop_editing, this_form_name, as_form;
    munfold.
  by rewrite Ht.
Qed.

Lemma navigation_needs_a_current_form_witness :
  switch_form (Some "SECOND") MyTestApp = (Raise AttributeError, MyTestApp).
Proof.
  apply (navigation_needs_a_current_form MyTestApp (Some "SECOND") None).
  reflexivity.
Defined.

(** ** Switching at once, and going back *)

#[export] Instance navigation_kept_preorder : PreOrder navigation_kept.
Proof.
  split.
  - intros s. by split_and!.
  - intros s1 s2 s3 (? & ? & ? & ? & ? & ?) (? & ? & ? & ? & ? & ?).
    split_and!; congruence.
Qed.

Lemma navigation_kept_switch_form_now : keeps navigation_kept switch_form_now.
Proof. unfold switch_form_now. keeps_solve. Qed.

Lemma widget_settled (w : widget) :
  let w1 := widget_stop_editing w in
  let w2 := default w1 (widget_stop_entry_editing w1) in
  widget_stop_editing w2 = w2 /\
  default w2 (widget_stop_entry_editing w2) = w2.
Proof.
  destruct w as [ed [[ed' e']|]]; simpl; by split.
Qed.

Lemma switch_form_now_run (s : app) (a : addr) (f : form) :
  _THIS_FORM s = Some (FormRef a) -> heap s !! a = Some f ->
  switch_form_now s
  = (Ret tt, set_heap (<[a := form_after_switch f]> (heap s)) s).
Proof.
  intros Ht Hf.
  destruct s as [h next lastnext forms lastname this active hp tr].
  simpl in *. subst this.
  assert (Ha : a < length hp) by by eapply lookup_lt_Some.
  unfold switch_form_now, this_form_stop_editing, focused_widget,
    as_form, deref, store, widget_stop_entry_editing, form_after_switch;
    munfold; simpl.
  unfold focused.
  assert (Hlt : forall (ws : list widget) i n,
             py_index ws i = Some n -> n < length ws)
    by apply @py_index_lt.
  destruct (_widgets__ f) as [ws|] eqn:Ews;
  [destruct (editw f) as [i|] eqn:Ei;
   [destruct (py_index ws i) as [n|] eqn:En;
    [destruct (ws !! n) as [w|] eqn:Ew;
     [destruct (entry_widget w) as [e|] eqn:Ee|] |] |] |];
  repeat (first [ rewrite Hf | rewrite Ews | rewrite Ei | rewrite En
                | rewrite Ew | rewrite Ee
                | rewrite py_index_insert
                | rewrite list_insert_insert_eq
                | rewrite list_lookup_insert_eq
                    by (rewrite ?length_insert; eauto) ];
          simpl);
  unfold set_heap, widget_stop_entry_editing; simpl; rewrite ?Ee; simpl;
  by destruct f.
Qed.

Lemma form_after_switch_attributes (f : form) :
  form_attributes_kept f (form_after_switch f).
Proof.
  unfold form_after_switch.
  destruct (focused f) as [[[ws n] w]|]; by split_and!.
Qed.

(** X7.  [switch_form_now] touches the current form object and nothing
    else, whether it returns or raises: the history, the next form, the
    registry, [_THIS_FORM] and the other attributes of the application
    are as they were, every other object is as it was, and of the current
    form only the [editing] flag and the widgets can differ. *)
Theorem switch_form_now_keeps_navigation (s : app) :
  navigation_kept s (switch_form_now s).2 /\
  bookkeeping_kept s (switch_form_now s).2 /\
  (forall b, _THIS_FORM s <> Some (FormRef b) ->
     heap (switch_form_now s).2 !! b = heap s !! b) /\
  (forall a f, _THIS_FORM s = Some (FormRef a) -> heap s !! a = Some f ->
     exists f',
       heap (switch_form_now s).2 !! a = Some f' /\
       form_attributes_kept f f').
Proof.
  destruct (_THIS_FORM s) as [[a|cls ar k]|] eqn:Ht.
  - destruct (heap s !! a) as [f|] eqn:Hf.
    + rewrite (switch_form_now_run s a f Ht Hf).
      assert (a < length (heap s)) by by eapply lookup_lt_Some.
      simpl. split_and!.
      * unfold navigation_kept; simpl. split_and!; try done.
        by rewrite length_insert.
      * by split_and!.
      * intros b Hb. apply list_lookup_insert_ne. congruence.
      * intros a0 f0 Ha0 Hf0. simplify_eq.
        eexists. split; [by apply list_lookup_insert_eq|].
        apply form_after_switch_attributes.
    + replace (switch_form_now s) with (@Raise unit ReferenceError, s).
      2: { unfold switch_form_now, this_form_stop_editing, as_form, deref;
           munfold. by rewrite Ht, Hf. }
      simpl. split_and!; [by split_and! | by split_and! | done |].
      intros a0 f0 Ha0 Hf0. simplify_eq.
  - replace (switch_form_now s) with (@Raise unit AttributeError, s).
    2: { unfold switch_form_now, this_form_stop_editing, as_form; munfold.
         by rewrite Ht. }
    simpl. split_and!; [by split_and! | by split_and! | done | done].
  - replace (switch_form_now s) with (@Raise unit AttributeError, s).
    2: { unfold switch_form_now, this_form_stop_editing, as_form; munfold.
         by rewrite Ht. }
    simpl. split_and!; [by split_and! | by split_and! | done | done].
Qed.

Lemma form_after_switch_idem (f : form) :
  form_after_switch (form_after_switch f) = form_after_switch f.
Proof.
  unfold form_after_switch at 2 3. unfold focused.
  destruct (_widgets__ f) as [ws|] eqn:Ews;
    [destruct (editw f) as [i|] eqn:Ei;
     [destruct (py_index ws i) as [n|] eqn:En;
      [destruct (ws !! n) as [w|] eqn:Ew |] |] |];
    unfold form_after_switch, focused; simpl;
    rewrite ?Ews, ?Ei; simpl; rewrite ?py_index_insert, ?En; simpl;
    try (by destruct f).
  - rewrite list_lookup_insert_eq by by eapply py_index_lt.
    destruct (widget_settled w) as [H1 H2]. simpl in H1, H2.
    rewrite H1, H2, list_insert_insert_eq. by destruct f.
  - rewrite Ew. by destruct f.
Qed.

(** X8.  [switch_form_now] is idempotent: calling it again changes
    nothing more, and raises what the first call raised. *)
Theorem switch_form_now_idempotent (s : app) :
  (switch_form_now ;; switch_form_now) s = switch_form_now s.
Proof.
  unfold bind.
  destruct (_THIS_FORM s) as [[a|cls ar k]|] eqn:Ht.
  - destruct (heap s !! a) as [f|] eqn:Hf.
    + rewrite (switch_form_now_run s a f Ht Hf).
      assert (a < length (heap s)) by by eapply lookup_lt_Some.
      rewrite (switch_form_now_run _ a (form_after_switch f)); simpl;
        [| done | by apply list_lookup_insert_eq].
      rewrite form_after_switch_idem. unfold set_heap; simpl.
      by rewrite list_insert_insert_eq.
    + replace (switch_form_now s) with (@Raise unit ReferenceError, s); [done|].
      unfold switch_form_now, this_form_stop_editing, as_form, deref; munfold.
      by rewrite Ht, Hf.
  - replace (switch_form_now s) with (@Raise unit AttributeError, s); [done|].
    unfold switch_form_now, this_form_stop_editing, as_form; munfold.
    by rewrite Ht.
  - replace (switch_form_now s) with (@Raise unit AttributeError, s); [done|].
    unfold switch_form_now, this_form_stop_editing, as_form; munfold.
    by rewrite Ht.
Qed.

Lemma set_next_form_previous_run
    (s : app) (a : addr) (f : form) (C : string) (backup : ident) :
  _THIS_FORM s = Some (FormRef a) -> heap s !! a = Some f ->
  FORM_NAME f = Some C ->
  set_next_form_previous backup s
  = (Ret tt,
     set_NEXT_ACTIVE_FORM
       (go_back C backup (_FORM_VISIT_LIST s) (NEXT_ACTIVE_FORM s)).2
       (set_FORM_VISIT_LIST
          (go_back C backup (_FORM_VISIT_LIST s) (NEXT_ACTIVE_FORM s)).1 s)).
Proof.
  intros Ht Hf Hn.
  destruct s as [hist next lastnext forms lastname this active hp tr].
  simpl in *. subst this.
  unfold set_next_form_previous, this_form_name, as_form, deref, history_pop,
    set_next_form, go_back; munfold; simpl.
  rewrite Hf; simpl. rewrite Hn; simpl.
  destruct (last hist) as [top|] eqn:Etop; simpl.
  - destruct hist as [|x l]; [done|].
    repeat (first [rewrite Etop | rewrite Hf | rewrite Hn | case_bool_decide];
            simplify_eq; simpl);
      try done.
    by destruct (last (removelast (x :: l))).
  - apply last_None in Etop. by subst hist.
Qed.

(** X9.  While a named form is shown, [switch_form_previous] never
    raises: it goes back as [set_next_form_previous] does with the class's
    starting form "MAIN" as backup, and stops the editing of the current
    form as [switch_form_now] does. *)
Theorem switch_form_previous_when_shown
    (s : app) (a : addr) (f : form) (C : string) :
  _THIS_FORM s = Some (FormRef a) -> heap s !! a = Some f ->
  FORM_NAME f = Some C ->
  exists s1,
    set_next_form_previous (Some "MAIN") s = (Ret tt, s1) /\
    switch_form_previous s
    = (Ret tt, set_heap (<[a := form_after_switch f]> (heap s)) s1) /\
    heap s1 = heap s /\
    (_FORM_VISIT_LIST s1, NEXT_ACTIVE_FORM s1)
    = go_back C (Some "MAIN") (_FORM_VISIT_LIST s) (NEXT_ACTIVE_FORM s).
Proof.
  intros Ht Hf Hn. eexists. split.
  { by apply (set_next_form_previous_run s a f C). }
  unfold switch_form_previous, bind.
  change (Some STARTING_FORM) with (Some "MAIN").
  rewrite (set_next_form_previous_run s a f C) by done.
  rewrite (switch_form_now_run _ a f) by done. simpl.
  split_and!; [done | done |].
  by destruct (go_back C (Some "MAIN") (_FORM_VISIT_LIST s) (NEXT_ACTIVE_FORM s)).
Qed.

Lemma switch_form_previous_when_shown_witness :
  exists s1,
    switch_form_previous on_SECOND
    = (Ret tt, set_heap (<[1 := form_after_switch
                                  (default (Form None false None None None
                                              false false false VNone)
                                     (heap on_SECOND !! 1))]>
                           (heap on_SECOND)) s1) /\
    (_FORM_VISIT_LIST s1, NEXT_ACTIVE_FORM s1) = ([], Some "MAIN").
Proof.
  destruct (switch_form_previous_when_shown on_SECOND 1
              (default (Form None false None None None false false false VNone)
                 (heap on_SECOND !! 1)) "SECOND")
    as (s1 & _ & Hrun & _ & Hgo);
    [vm_compute; reflexivity | vm_compute; reflexivity
    | vm_compute; reflexivity |].
  exists s1. split; [exact Hrun|]. rewrite Hgo. vm_compute. reflexivity.
Defined.



(** ** A turn of the loop, from the calls of its form *)

Lemma activate_this_form_opening (calls : list call) (s : app) (a : addr) (f : form) :
  _THIS_FORM s = Some (FormRef a) -> heap s !! a = Some f ->
  activate_this_form calls s
  = match do_calls calls (set_trace (trace s ++ opening_events a f) s) with
    | (Ret _, s2) =>
        if has_activate f then (Ret tt, s2)
        else match heap s2 !! a with
             | Some f2 =>
                 (Ret tt,
                  if has_after_editing f2
                  then set_trace (trace s2 ++ [ev_after_editing a]) s2
                  else s2)
             | None => (Raise ReferenceError, s2)
             end
    | (Raise e, s2) => (Raise e, s2)
    end.
Proof.
  intros Ht Hf. rewrite (activate_this_form_run calls s a f Ht Hf).
  unfold opening_events. destruct (has_activate f); [|done].
  by destruct (do_calls calls _) as [[[]|e] s2].
Qed.

Lemma loop_body_elim (calls : list call) (s s1 : app) :
  loop_body calls s = (Ret tt, s1) ->
  exists s_sel a f s2,
    select_next_form s = (Ret tt, s_sel) /\
    _THIS_FORM s_sel = Some (FormRef a) /\ heap s_sel !! a = Some f /\
    do_calls calls (set_trace (trace s_sel ++ opening_events a f) s_sel)
    = (Ret tt, s2) /\
    same_navigation s1 s2.
Proof.
  intros Hrun. apply loop_body_inv in Hrun as (t & Hsel & Hrest & _).
  apply bind_Ret_inv in Hrest as ([] & s2 & Hact & Hlog).
  injection Hlog as <-.
  pose proof Hsel as Hsel'.
  apply select_next_form_inv in Hsel' as (name & o & a & f & _ & _ & Hcase).
  assert (_THIS_FORM t = Some (FormRef a) /\ exists g, heap t !! a = Some g)
    as (Ht & g & Hg).
  { destruct Hcase as [(? & ? & ? & _ & _ & -> & ->)|(_ & Hf & ->)]; simpl.
    - split; [done|]. eexists. apply lookup_snoc_new.
    - split; [done|]. eexists. apply list_lookup_insert_eq.
      by eapply lookup_lt_Some. }
  rewrite (activate_this_form_opening calls t a g Ht Hg) in Hact.
  destruct (do_calls calls _) as [[[]|e] s3] eqn:Hcalls; [|done].
  exists t, a, g, s3. split_and!; [done.. |].
  destruct (has_activate g).
  - injection Hact as <-. by split_and!.
  - destruct (heap s3 !! a) as [f2|]; [|done]. injection Hact as <-.
    by destruct (has_after_editing f2); split_and!.
Qed.

Lemma loop_body_intro (calls : list call) (s s_sel s2 : app) (a : addr) (f : form) :
  select_next_form s = (Ret tt, s_sel) ->
  _THIS_FORM s_sel = Some (FormRef a) -> heap s_sel !! a = Some f ->
  do_calls calls (set_trace (trace s_sel ++ opening_events a f) s_sel)
  = (Ret tt, s2) ->
  exists s1, loop_body calls s = (Ret tt, s1) /\ same_navigation s1 s2.
Proof.
  intros Hsel Ht Hf Hcalls.
  unfold loop_body, bind at 1. rewrite Hsel. unfold bind at 1.
  rewrite (activate_this_form_opening calls s_sel a f Ht Hf).
  pose proof (frame_do_calls calls
                (set_trace (trace s_sel ++ opening_events a f) s_sel))
    as (_ & Hlen & _ & _).
  rewrite Hcalls in Hlen |- *. simpl in Hlen.
  assert (a < length (heap s_sel)) by by eapply lookup_lt_Some.
  destruct (lookup_lt_is_Some_2 (heap s2) a) as [f2 Hf2]; [lia|].
  rewrite Hf2.
  destruct (has_activate f), (has_after_editing f2); simpl;
    eexists; (split; [reflexivity|]); by split_and!.
Qed.

Lemma loop_body_intro_raise
    (calls : list call) (s s_sel s2 : app) (a : addr) (f : form) (e : exn) :
  select_next_form s = (Ret tt, s_sel) ->
  _THIS_FORM s_sel = Some (FormRef a) -> heap s_sel !! a = Some f ->
  do_calls calls (set_trace (trace s_sel ++ opening_events a f) s_sel)
  = (Raise e, s2) ->
  loop_body calls s = (Raise e, s2).
Proof.
  intros Hsel Ht Hf Hcalls.
  unfold loop_body, bind at 1. rewrite Hsel. unfold bind at 1.
  rewrite (activate_this_form_opening calls s_sel a f Ht Hf).
  by rewrite Hcalls.
Qed.

(** A form that can be shown is shown under its name. *)
Lemma select_next_form_shows (s : app) (name : string) :
  NEXT_ACTIVE_FORM s = Some name -> resolvable s name ->
  exists o a hp f,
    _Forms s !! name = Some o /\
    select_next_form s = (Ret tt, selected name o a hp s) /\
    hp !! a = Some f /\ FORM_NAME f = Some name /\
    length (heap s) <= length hp.
Proof.
  unfold resolvable. intros Hnext Hres.
  destruct (_Forms s !! name) as [[a|cls ar k]|] eqn:Hreg; [| |done].
  - destruct (lookup_lt_is_Some_2 (heap s) a Hres) as [f Hf].
    exists (FormRef a), a, (<[a := set_FORM_NAME (Some name) f]> (heap s)),
      (set_FORM_NAME (Some name) f).
    split_and!; [done | | | done |].
    + by apply select_next_form_form_ref.
    + by apply list_lookup_insert_eq.
    + by rewrite length_insert.
  - destruct Hres as [f Hcls].
    exists (ClassEntry cls ar k), (length (heap s)),
      (heap s ++ [set_FORM_NAME (Some name) f]), (set_FORM_NAME (Some name) f).
    split_and!; [done | | | done |].
    + by apply select_next_form_class_entry.
    + apply lookup_snoc_new.
    + rewrite length_app. lia.
Qed.

(** X11.  When the loop has selected a form, the names agree: the
    current form carries the requested name in [FORM_NAME],
    [ACTIVE_FORM_NAME] and [LAST_ACTIVE_FORM_NAME] hold it, it is the top
    of the history, and [_LAST_NEXT_ACTIVE_FORM] is the registry value
    (for a class entry the stored list, not the instance on screen). *)
Theorem selected_form_is_named (s s1 : app) :
  select_next_form s = (Ret tt, s1) ->
  exists name o,
    NEXT_ACTIVE_FORM s = Some name /\ _Forms s !! name = Some o /\
    current_screen s1 name /\
    ACTIVE_FORM_NAME s1 = Some name /\
    LAST_ACTIVE_FORM_NAME s1 = Some name /\
    _LAST_NEXT_ACTIVE_FORM s1 = Some o /\
    NEXT_ACTIVE_FORM s1 = Some name /\
    _FORM_VISIT_LIST s1 = with_visit name (_FORM_VISIT_LIST s) /\
    last (_FORM_VISIT_LIST s1) = Some name.
Proof.
  intros Hsel.
  apply select_next_form_inv in Hsel as (name & o & a & f & Hnext & Hreg & Hcase).
  exists name, o.
  assert (Hlast : last (with_visit name (_FORM_VISIT_LIST s)) = Some name).
  { unfold with_visit. case_bool_decide; [done | apply last_snoc]. }
  destruct Hcase as [(? & ? & ? & _ & _ & -> & ->)|(_ & Hf & ->)]; simpl;
    (split_and!; [done | done | | done..]).
  all: eexists _, _; split_and!;
    [ done
    | simpl; first [ apply lookup_snoc_new
                   | apply list_lookup_insert_eq; by eapply lookup_lt_Some ]
    | done ].
Qed.

Lemma selected_form_is_named_witness :
  exists name o,
    NEXT_ACTIVE_FORM MyTestApp = Some name /\ _Forms MyTestApp !! name = Some o /\
    current_screen (select_next_form MyTestApp).2 name.
Proof.
  destruct (selected_form_is_named MyTestApp (select_next_form MyTestApp).2)
    as (name & o & H1 & H2 & H3 & _); [vm_compute; reflexivity|].
  exists name, o. by split_and!.
Defined.

(** ** Going back, forgetting and leaving, seen from the loop *)

Lemma with_visit_new (h : list string) (A B : string) :
  A <> B -> with_visit B (h ++ [A]) = (h ++ [A]) ++ [B].
Proof.
  intros Hne. unfold with_visit. rewrite last_snoc.
  by rewrite bool_decide_eq_false_2 by congruence.
Qed.

Lemma go_back_pushed (h : list string) (A B : string) (backup : ident) :
  go_back B backup ((h ++ [A]) ++ [B]) (Some B) = (h, Some A).
Proof.
  unfold go_back.
  destruct ((h ++ [A]) ++ [B]) as [|x l] eqn:E.
  { by destruct h. }
  rewrite <- E. rewrite last_snoc.
  rewrite (bool_decide_eq_true_2 (Some B = Some B)) by done.
  by rewrite removelast_last, last_snoc, removelast_last.
Qed.

Lemma do_calls_single (c : call) (s : app) :
  do_calls [c] s = do_call c s.
Proof.
  simpl. unfold bind, ret. by destruct (do_call c s) as [[[]|e] s1].
Qed.

(** X12.  Going back through the loop.  The form [B] is due, the history
    ends with another form [A], and [B], once shown, calls
    [switch_form_previous]: the turn completes, [A] is the next form, and
    the history has lost [A] as well as [B] ([A] is entered again when it
    is shown). *)
Theorem switch_form_previous_returns_to_the_caller
    (s : app) (h : list string) (A B : string) :
  NEXT_ACTIVE_FORM s = Some B -> _FORM_VISIT_LIST s = h ++ [A] ->
  A <> B -> resolvable s B ->
  exists s1,
    loop_body [c_switch_form_previous] s = (Ret tt, s1) /\
    NEXT_ACTIVE_FORM s1 = Some A /\
    _FORM_VISIT_LIST s1 = h.
Proof.
  intros Hnext Hhist Hne Hres.
  destruct (select_next_form_shows s B Hnext Hres)
    as (o & a & hp & f & _ & Hsel & Hf & Hname & _).
  edestruct (loop_body_intro [c_switch_form_previous] s) as (s1 & Hrun & Hnav);
    [exact Hsel | reflexivity | exact Hf | |].
  - rewrite do_calls_single. simpl. unfold switch_form_previous, bind.
    rewrite (set_next_form_previous_run _ a f B) by done.
    rewrite (switch_form_now_run _ a f) by done. reflexivity.
  - exists s1. destruct Hnav as (Hh & Hn & _). split; [done|].
    rewrite Hh, Hn. simpl. rewrite Hnext, Hhist, (with_visit_new h A B Hne).
    by rewrite go_back_pushed.
Qed.

Lemma switch_form_previous_returns_to_the_caller_witness :
  exists s1,
    loop_body [c_switch_form_previous]
      (set_FORM_VISIT_LIST ["MAIN"]
         (set_NEXT_ACTIVE_FORM (Some "SECOND") MyTestApp))
    = (Ret tt, s1) /\
    NEXT_ACTIVE_FORM s1 = Some "MAIN" /\ _FORM_VISIT_LIST s1 = [].
Proof.
  apply (switch_form_previous_returns_to_the_caller
           (set_FORM_VISIT_LIST ["MAIN"]
              (set_NEXT_ACTIVE_FORM (Some "SECOND") MyTestApp))
           [] "MAIN" "SECOND");
    [reflexivity | reflexivity | done | vm_compute; lia].
Defined.

(** X13.  [remove_last_form_from_history] called by a form in its turn
    removes that form's own entry and the one before it.  The first form
    of a run has only its own entry: there the call raises IndexError,
    which leaves [main], with the history emptied. *)
Theorem remove_last_form_from_history_in_a_turn
    (s : app) (B : string) :
  NEXT_ACTIVE_FORM s = Some B -> B <> "" -> resolvable s B ->
  (forall h A, _FORM_VISIT_LIST s = h ++ [A] -> A <> B ->
     exists s1,
       loop_body [c_remove_last_form_from_history] s = (Ret tt, s1) /\
       _FORM_VISIT_LIST s1 = h /\ NEXT_ACTIVE_FORM s1 = Some B) /\
  (_FORM_VISIT_LIST s = [] ->
     forall rest, exists s',
       main ([c_remove_last_form_from_history] :: rest) s
       = Failed IndexError s' /\
       _FORM_VISIT_LIST s' = []).
Proof.
  intros Hnext Hne Hres. split.
  - intros h A Hhist HAB.
    destruct (select_next_form_shows s B Hnext Hres)
      as (o & a & hp & f & _ & Hsel & Hf & Hname & _).
    edestruct (loop_body_intro [c_remove_last_form_from_history] s)
      as (s1 & Hrun & Hnav); [exact Hsel | reflexivity | exact Hf | |].
    + rewrite do_calls_single. simpl.
      unfold remove_last_form_from_history, bind.
      rewrite (history_pop_snoc _ (h ++ [A]) B).
      2:{ simpl. by rewrite Hhist, (with_visit_new h A B HAB). }
      by rewrite (history_pop_snoc _ h A).
    + exists s1. destruct Hnav as (Hh & Hn & _). by rewrite Hh, Hn.
  - intros Hhist rest. unfold main. simpl.
    assert (Hcond : loop_condition (on_start s) = true).
    { unfold loop_condition. simpl. rewrite Hnext.
      by apply bool_decide_eq_true_2. }
    rewrite Hcond.
    assert (Hres' : resolvable (on_start s) B) by done.
    destruct (select_next_form_shows (on_start s) B Hnext Hres')
      as (o & a & hp & f & _ & Hsel & Hf & Hname & _).
    erewrite (loop_body_intro_raise [c_remove_last_form_from_history]
                (on_start s) _ _ a f IndexError Hsel eq_refl Hf).
    2:{ rewrite do_calls_single. simpl.
        unfold remove_last_form_from_history, bind.
        rewrite (history_pop_snoc _ [] B).
        2:{ simpl. by rewrite Hhist. }
        by rewrite history_pop_nil. }
    eexists. split; [reflexivity|]. done.
Qed.

Lemma remove_last_form_from_history_in_a_turn_witness :
  exists s',
    main [[c_remove_last_form_from_history]] MyTestApp = Failed IndexError s' /\
    _FORM_VISIT_LIST s' = [].
Proof.
  apply (proj2 (remove_last_form_from_history_in_a_turn MyTestApp "MAIN"
                  eq_refl ltac:(done) ltac:(vm_compute; lia)) eq_refl []).
Defined.

Lemma do_calls_app_inv (cs1 cs2 : list call) (s s2 : app) :
  do_calls (cs1 ++ cs2) s = (Ret tt, s2) ->
  exists s1, do_calls cs1 s = (Ret tt, s1) /\ do_calls cs2 s1 = (Ret tt, s2).
Proof.
  revert s. induction cs1 as [|c cs1 IH]; intros s; simpl.
  - intros H. by exists s.
  - unfold bind. destruct (do_call c s) as [[[]|e] s']; [apply IH | done].
Qed.

Lemma switch_form_Ret_next (form_id : ident) (s s1 : app) :
  switch_form form_id s = (Ret tt, s1) ->
  NEXT_ACTIVE_FORM s1 = form_id /\ _FORM_VISIT_LIST s1 = _FORM_VISIT_LIST s.
Proof.
  unfold switch_form. intros Hrun.
  apply bind_Ret_inv in Hrun as ([] & t1 & Hstop & Hrun).
  apply bind_Ret_inv in Hrun as ([] & t2 & Hset & Hrun).
  injection Hset as <-.
  assert (keeps navigation_kept this_form_stop_editing) as Hk
    by (unfold this_form_stop_editing; keeps_solve).
  pose proof (Hk s) as (Hh1 & _). rewrite Hstop in Hh1. simpl in Hh1.
  pose proof (navigation_kept_switch_form_now (set_NEXT_ACTIVE_FORM form_id t1))
    as (Hh2 & Hn2 & _).
  rewrite Hrun in Hh2, Hn2. simpl in *. split; congruence.
Qed.

(** X14.  [MyTestApp.change_form] is [switch_form] followed by
    [reset_history], and a turn of the loop whose form ends with it leaves
    an empty history and the requested form as the next one, whatever the
    history was: in that application the history never holds more than
    the form on screen. *)
Theorem change_form_leaves_no_history :
  (forall name s,
     do_calls [c_switch_form name; c_reset_history] s = change_form name s) /\
  (forall calls name s s1,
     loop_body (calls ++ [c_switch_form name; c_reset_history]) s
     = (Ret tt, s1) ->
     _FORM_VISIT_LIST s1 = [] /\ NEXT_ACTIVE_FORM s1 = name) /\
  (forall s s_sel,
     select_next_form s = (Ret tt, s_sel) ->
     _FORM_VISIT_LIST s = [] ->
     exists shown, NEXT_ACTIVE_FORM s = Some shown /\
                   _FORM_VISIT_LIST s_sel = [shown]).
Proof.
  split_and!.
  - intros name s. simpl. unfold change_form, bind.
    destruct (switch_form name s) as [[[]|e] s1]; [|done].
    by destruct (reset_history s1) as [[[]|e] s2].
  - intros calls name s s1 Hrun.
    apply loop_body_elim in Hrun
      as (s_sel & a & f & s2 & _ & _ & _ & Hcalls & Hh & Hn & _).
    apply do_calls_app_inv in Hcalls as (t & _ & Hlast).
    simpl in Hlast.
    apply bind_Ret_inv in Hlast as ([] & t1 & Hswitch & Hlast).
    apply bind_Ret_inv in Hlast as ([] & t2 & Hreset & Hlast).
    injection Hlast as <-. injection Hreset as <-.
    apply switch_form_Ret_next in Hswitch as [Hnext _].
    rewrite Hh, Hn. by simpl.
  - intros s s_sel Hsel Hempty.
    apply select_next_form_inv in Hsel as (shown & o & a & f & Hnext & _ & Hcase).
    exists shown. split; [done|].
    destruct Hcase as [(? & ? & ? & _ & _ & _ & ->)|(_ & _ & ->)]; simpl;
      by rewrite Hempty.
Qed.

Lemma change_form_leaves_no_history_witness :
  _FORM_VISIT_LIST
    (loop_body ([] ++ [c_switch_form (Some "SECOND"); c_reset_history])
       MyTestApp).2 = [] /\
  NEXT_ACTIVE_FORM
    (loop_body ([] ++ [c_switch_form (Some "SECOND"); c_reset_history])
       MyTestApp).2 = Some "SECOND".
Proof.
  apply (proj1 (proj2 change_form_leaves_no_history) [] (Some "SECOND")
           MyTestApp).
  vm_compute. reflexivity.
Defined.

(** X15.  [MainForm.on_ok] calls [switch_form(None)]: a turn whose form
    ends with [switch_form] of a stop value, and completes, is the last
    one; [main] leaves the loop and calls [on_clean_exit]. *)
Theorem switch_form_to_a_stop_value_ends_the_run
    (calls : list call) (rest : list (list call)) (s s1 : app) (stop : ident) :
  is_stop stop -> loop_condition s = true ->
  loop_body (calls ++ [c_switch_form stop]) s = (Ret tt, s1) ->
  NEXT_ACTIVE_FORM s1 = stop /\
  main_loop ((calls ++ [c_switch_form stop]) :: rest) s
  = Finished (on_clean_exit s1).
Proof.
  intros Hstop Hcond Hrun.
  assert (Hnext : NEXT_ACTIVE_FORM s1 = stop).
  { pose proof Hrun as Hrun'.
    apply loop_body_elim in Hrun'
      as (s_sel & a & f & s2 & _ & _ & _ & Hcalls & _ & Hn & _).
    apply do_calls_app_inv in Hcalls as (t & _ & Hlast).
    rewrite do_calls_single in Hlast. simpl in Hlast.
    apply switch_form_Ret_next in Hlast as [Hnext _]. congruence. }
  split; [done|]. simpl. rewrite Hcond, Hrun.
  apply main_loop_stop. by rewrite Hnext.
Qed.

Lemma switch_form_to_a_stop_value_ends_the_run_witness :
  main_loop [[] ++ [c_switch_form None]] MyTestApp
  = Finished (on_clean_exit (loop_body ([] ++ [c_switch_form None]) MyTestApp).2).
Proof.
  apply (switch_form_to_a_stop_value_ends_the_run [] [] MyTestApp
           (loop_body ([] ++ [c_switch_form None]) MyTestApp).2 None).
  - by left.
  - reflexivity.
  - vm_compute. reflexivity.
Defined.

(** ** Runs of [main] *)

(** X16.  A due form that is not registered: [main] calls [on_start]
    and then raises KeyError, before any form is touched; the history is
    as it was and [on_clean_exit] is not called. *)
Theorem main_fails_on_an_unknown_form
    (calls : list call) (rest : list (list call)) (s : app) (name : string) :
  NEXT_ACTIVE_FORM s = Some name -> name <> "" -> _Forms s !! name = None ->
  main (calls :: rest) s = Failed KeyError (on_start s) /\
  trace (on_start s) = trace s ++ [ev_on_start] /\
  _FORM_VISIT_LIST (on_start s) = _FORM_VISIT_LIST s.
Proof.
  intros Hnext Hne Hreg. split; [|done]. unfold main. simpl.
  assert (Hcond : loop_condition (on_start s) = true).
  { unfold loop_condition. simpl. rewrite Hnext.
    by apply bool_decide_eq_true_2. }
  rewrite Hcond. unfold loop_body, bind.
  by rewrite (select_next_form_unknown (on_start s) name).
Qed.

Lemma main_fails_on_an_unknown_form_witness :
  main [[]] init = Failed KeyError (on_start init).
Proof.
  apply (main_fails_on_an_unknown_form [] [] init "MAIN");
    [reflexivity | done | reflexivity].
Defined.

Lemma main_loop_unfinished_trace (script : list (list call)) (s : app) :
  (forall s', main_loop script s <> Finished s') ->
  exists t, trace (final_state (main_loop script s)) = trace s ++ t /\
            ev_on_clean_exit ∉ t.
Proof.
  revert s. induction script as [|calls script IH]; intros s; simpl.
  - destruct (loop_condition s); intros Hnot.
    + exists []. split; [by rewrite app_nil_r | apply not_elem_of_nil].
    + by destruct (Hnot (on_clean_exit s)).
  - destruct (loop_condition s); intros Hnot.
    2:{ by destruct (Hnot (on_clean_exit s)). }
    destruct (loop_body calls s) as [[[]|e] s1] eqn:Hbody.
    + destruct (loop_body_Ret_trace calls s s1 Hbody) as (a & f & f2 & Htr).
      destruct (IH s1 Hnot) as (t & Htr1 & Ht).
      exists ((activation_events a f f2 ++ [ev_on_in_main_loop]) ++ t).
      split; [by rewrite Htr1, Htr, <- !app_assoc|].
      rewrite elem_of_app. intros [Hin|Hin]; [|done].
      by apply (clean_exit_not_in_turn a f f2).
    + destruct (loop_body_Raise_trace calls s s1 e Hbody) as (t & Htr & Ht).
      exists t. split; [done|]. by apply (form_events_no_hook t).
Qed.

(** X17.  [on_clean_exit] is called when [main] returns and only then:
    a run that ends in an exception, or that is still waiting for a form
    to finish, has not called it. *)
Theorem on_clean_exit_only_when_main_returns
    (script : list (list call)) (s : app) :
  exists t,
    trace (final_state (main script s)) = trace s ++ t /\
    (ev_on_clean_exit ∈ t <-> exists s', main script s = Finished s').
Proof.
  unfold main.
  destruct (main_loop script (on_start s)) as [s'|e s'|s'] eqn:Hrun.
  - destruct (main_loop_Finished_trace script (on_start s) s' Hrun)
      as (t & Htr & _).
    exists ([ev_on_start] ++ t ++ [ev_on_clean_exit]). cbn [final_state]. split.
    + rewrite Htr. simpl. by rewrite <- app_assoc.
    + split; [by eauto|]. intros _.
      rewrite !elem_of_app. right. right. by apply list_elem_of_singleton.
  - destruct (main_loop_unfinished_trace script (on_start s))
      as (t & Htr & Ht); [by rewrite Hrun|].
    rewrite Hrun in Htr. exists ([ev_on_start] ++ t). cbn [final_state] in *.
    split.
    + rewrite Htr. simpl. by rewrite <- app_assoc.
    + split; [|by intros [? ?]].
      rewrite elem_of_app, list_elem_of_singleton. intros [?|?]; [done|].
      by destruct Ht.
  - destruct (main_loop_unfinished_trace script (on_start s))
      as (t & Htr & Ht); [by rewrite Hrun|].
    rewrite Hrun in Htr. exists ([ev_on_start] ++ t). cbn [final_state] in *.
    split.
    + rewrite Htr. simpl. by rewrite <- app_assoc.
    + split; [|by intros [? ?]].
      rewrite elem_of_app, list_elem_of_singleton. intros [?|?]; [done|].
      by destruct Ht.
Qed.

Lemma loop_body_requests_history (ids : list ident) (s : app) (name : string) :
  NEXT_ACTIVE_FORM s = Some name -> resolvable s name ->
  exists s1,
    loop_body (map c_set_next_form ids) s = (Ret tt, s1) /\
    NEXT_ACTIVE_FORM s1 = default (NEXT_ACTIVE_FORM s) (last ids) /\
    _Forms s1 = _Forms s /\ length (heap s) <= length (heap s1) /\
    _FORM_VISIT_LIST s1 = with_visit name (_FORM_VISIT_LIST s).
Proof.
  intros Hnext Hres.
  destruct (loop_body_requests ids s name Hnext Hres)
    as (s1 & t & Hrun & Hn & Hforms & Hheap & _).
  exists s1. split_and!; [done.. |].
  apply loop_body_elim in Hrun
    as (s_sel & a & f & s2 & Hsel & _ & _ & Hcalls & Hh & _).
  rewrite do_calls_requests in Hcalls. injection Hcalls as <-.
  rewrite Hh. simpl.
  apply select_next_form_inv in Hsel as (n & o & a' & f' & Hn' & _ & Hcase).
  assert (n = name) as -> by congruence.
  by destruct Hcase as [(? & ? & ? & _ & _ & _ & ->)|(_ & _ & ->)].
Qed.

Lemma main_loop_history (reqs : list (list ident)) (s : app) :
  (forall name, NEXT_ACTIVE_FORM s = Some name -> name <> "" ->
                resolvable s name) ->
  (forall name, Some name ∈ concat reqs -> name <> "" -> resolvable s name) ->
  _FORM_VISIT_LIST (final_state (main_loop (map (map c_set_next_form) reqs) s))
  = foldl (fun h name => with_visit name h) (_FORM_VISIT_LIST s)
      (visits (NEXT_ACTIVE_FORM s) reqs).
Proof.
  revert s. induction reqs as [|ids reqs IH]; intros s Hnow Hall.
  - simpl. by destruct (loop_condition s).
  - simpl. unfold loop_condition.
    destruct (NEXT_ACTIVE_FORM s) as [name|] eqn:Hnext; [|done].
    case_bool_decide as Hne; [|done].
    destruct (loop_body_requests_history ids s name Hnext (Hnow name eq_refl Hne))
      as (s1 & Hrun & Hnext1 & Hforms & Hheap & Hhist).
    rewrite Hrun. simpl. rewrite <- Hhist, <- Hnext, <- Hnext1.
    apply IH.
    + intros n Hn Hnne. apply (resolvable_later s); [done.. |].
      rewrite Hnext1 in Hn. destruct (last ids) as [i|] eqn:Hlast; simpl in Hn.
      * apply Hall; [|done]. simpl. rewrite elem_of_app. left.
        subst i. by apply last_Some_elem_of.
      * apply Hnow; [congruence | done].
    + intros n Hn Hnne. apply (resolvable_later s); [done.. |].
      apply Hall; [|done]. simpl. rewrite elem_of_app. by right.
Qed.

(** X18.  The history records the forms shown, consecutive repeats
    collapsed: when the forms only request their successors and every
    requested form can be shown, the history at the end of the run is the
    history at its start with the names of the forms shown entered in
    turn, each unless it is on top already. *)
Theorem history_is_the_forms_shown
    (reqs : list (list ident)) (s : app) :
  (forall name, NEXT_ACTIVE_FORM s = Some name -> name <> "" ->
                resolvable s name) ->
  (forall name, Some name ∈ concat reqs -> name <> "" -> resolvable s name) ->
  _FORM_VISIT_LIST (final_state (main (map (map c_set_next_form) reqs) s))
  = foldl (fun h name => with_visit name h) (_FORM_VISIT_LIST s)
      (visits (NEXT_ACTIVE_FORM s) reqs).
Proof.
  intros Hnow Hall. unfold main.
  by apply (main_loop_history reqs (on_start s)).
Qed.

Lemma history_is_the_forms_shown_witness :
  _FORM_VISIT_LIST
    (final_state
       (main (map (map c_set_next_form)
                [[Some "SECOND"]; [Some "THIRD"]; [Some "MAIN"]; [None]])
          MyTestApp))
  = ["MAIN"; "SECOND"; "THIRD"; "MAIN"].
Proof.
  rewrite (history_is_the_forms_shown
             [[Some "SECOND"]; [Some "THIRD"]; [Some "MAIN"]; [None]] MyTestApp).
  - reflexivity.
  - intros name [= <-] _. vm_compute. lia.
  - intros name Hin Hne. simpl in Hin.
    rewrite !elem_of_cons, elem_of_nil in Hin.
    destruct Hin as [[= ->]|[[= ->]|[[= ->]|[[=]|[]]]]]; vm_compute;
      [lia | by eexists | lia].
Defined.

Lemma with_visit_idem (name : string) (h : list string) :
  with_visit name (with_visit name h) = with_visit name h.
Proof.
  unfold with_visit at 2 3. case_bool_decide as Htop.
  - unfold with_visit. by rewrite bool_decide_eq_true_2.
  - unfold with_visit. by rewrite last_snoc, bool_decide_eq_true_2.
Qed.


Lemma main_loop_idle (n : nat) (s : app) (name : string) :
  NEXT_ACTIVE_FORM s = Some name -> name <> "" -> resolvable s name ->
  exists s',
    main_loop (replicate n []) s = Starved s' /\
    NEXT_ACTIVE_FORM s' = Some name /\
    _FORM_VISIT_LIST s'
    = match n with
      | 0 => _FORM_VISIT_LIST s
      | S _ => with_visit name (_FORM_VISIT_LIST s)
      end.
Proof.
  revert s. induction n as [|n IH]; intros s Hnext Hne Hres; simpl.
  - assert (Hcond : loop_condition s = true).
    { unfold loop_condition. rewrite Hnext. by apply bool_decide_eq_true_2. }
    rewrite Hcond. by exists s.
  - assert (Hcond : loop_condition s = true).
    { unfold loop_condition. rewrite Hnext. by apply bool_decide_eq_true_2. }
    rewrite Hcond.
    destruct (loop_body_requests_history [] s name Hnext Hres)
      as (s1 & Hrun & Hnext1 & Hforms & Hheap & Hhist).
    simpl in Hrun, Hnext1. rewrite Hrun.
    destruct (IH s1) as (s' & Hrun' & Hnext' & Hhist');
      [congruence | done | by apply (resolvable_later s) |].
    exists s'. split_and!; [done | done |].
    rewrite Hhist', Hhist. destruct n; [done | apply with_visit_idem].
Qed.

(** X19.  A form that requests nothing is shown again: while the form
    that is due makes no call, each turn shows it once more and the loop
    does not end, however many turns it is given; the history holds its
    name once. *)
Theorem a_form_that_requests_nothing_is_shown_again
    (n : nat) (s : app) (name : string) :
  NEXT_ACTIVE_FORM s = Some name -> name <> "" -> resolvable s name ->
  exists s',
    main (replicate n []) s = Starved s' /\
    NEXT_ACTIVE_FORM s' = Some name /\
    _FORM_VISIT_LIST s'
    = match n with
      | 0 => _FORM_VISIT_LIST s
      | S _ => with_visit name (_FORM_VISIT_LIST s)
      end.
Proof.
  intros Hnext Hne Hres. unfold main.
  by apply (main_loop_idle n (on_start s) name).
Qed.

Lemma a_form_that_requests_nothing_is_shown_again_witness :
  exists s',
    main (replicate 5 []) MyTestApp = Starved s' /\
    NEXT_ACTIVE_FORM s' = Some "MAIN" /\
    _FORM_VISIT_LIST s' = ["MAIN"].
Proof.
  apply (a_form_that_requests_nothing_is_shown_again 5 MyTestApp "MAIN");
    [reflexivity | done | vm_compute; lia].
Defined.

#[export] Instance registry_kept_preorder : PreOrder registry_kept.
Proof.
  split; unfold registry_kept; [intros s | intros s1 s2 s3]; congruence.
Qed.

Lemma registry_kept_record_visit name : keeps registry_kept (record_visit name).
Proof. intros s. by rewrite record_visit_run. Qed.

Lemma registry_kept_alloc f : keeps registry_kept (alloc f).
Proof. by intros s. Qed.

#[export] Hint Resolve registry_kept_record_visit registry_kept_alloc : keeps.

Lemma registry_kept_do_call (c : call) :
  leaves_registry c = true -> keeps registry_kept (do_call c).
Proof. destruct c; simpl; intros Hc; try done; keeps_solve. Qed.

Lemma registry_kept_do_calls (cs : list call) :
  forallb leaves_registry cs = true -> keeps registry_kept (do_calls cs).
Proof.
  induction cs as [|c cs IH]; simpl; intros Hcs.
  - apply keeps_ret. apply _.
  - apply andb_prop in Hcs as [Hc Hcs].
    apply keeps_bind; [apply _ | by apply registry_kept_do_call | auto].
Qed.

Lemma registry_kept_loop_body (calls : list call) :
  forallb leaves_registry calls = true -> keeps registry_kept (loop_body calls).
Proof.
  intros Hcalls. pose proof (registry_kept_do_calls calls Hcalls).
  unfold loop_body, select_next_form, activate_this_form, on_in_main_loop.
  keeps_solve.
Qed.

Lemma registry_kept_main_loop (script : list (list call)) (s : app) :
  forallb (forallb leaves_registry) script = true ->
  _Forms (final_state (main_loop script s)) = _Forms s.
Proof.
  revert s. induction script as [|calls script IH]; intros s Hscript; simpl.
  - by destruct (loop_condition s).
  - simpl in Hscript. apply andb_prop in Hscript as [Hcalls Hscript].
    destruct (loop_condition s); [|done].
    pose proof (registry_kept_loop_body calls Hcalls s) as Hbody.
    destruct (loop_body calls s) as [[[]|e] s1]; simpl in *; [|done].
    rewrite (IH s1 Hscript). exact Hbody.
Qed.

(** X20.  The loop leaves the registry alone: as long as no form calls
    [add_form], [add_form_class] or [remove_form], the registry after a
    run of [main] is the registry before it, however the run ends.  An
    entry stored by [add_form_class] stays the class entry: the instances
    the loop creates are not kept. *)
Theorem main_leaves_the_registry_alone
    (script : list (list call)) (s : app) :
  forallb (forallb leaves_registry) script = true ->
  _Forms (final_state (main script s)) = _Forms s.
Proof.
  intros Hscript. unfold main.
  by rewrite (registry_kept_main_loop script (on_start s) Hscript).
Qed.

Lemma main_leaves_the_registry_alone_witness :
  _Forms (final_state
            (main [[c_switch_form (Some "THIRD")]; [c_switch_form_previous];
                   [c_set_next_form None]] MyTestApp))
  = _Forms MyTestApp.
Proof.
  apply (main_leaves_the_registry_alone
           [[c_switch_form (Some "THIRD")]; [c_switch_form_previous];
            [c_set_next_form None]] MyTestApp).
  reflexivity.
Defined.

(** ** The rows of the single-selection list *)

Lemma print_line_on_a_list
    (values : list pyvalue) (w : SelectOne.t) (l : SelectOneLine.line)
    (i : Z) (sel : list pyvalue) :
  SelectOne.value w = VList sel ->
  SelectOneLine._print_line values w l i
  = match py_getitem values i with
    | Some item =>
        (None, SelectOneLine.Line (VBool (existsb (py_int_eq i) sel)) false
                 (existsb (py_int_eq i) sel) item false)
    | None =>
        (None, SelectOneLine.Line (SelectOneLine.value l) true
                 (SelectOneLine.show_bold l) VNone false)
    end.
Proof.
  intros Hv. unfold SelectOneLine._print_line. rewrite Hv. simpl.
  destruct (py_getitem values i); [|done].
  by destruct (existsb (py_int_eq i) sel).
Qed.

(** X21.  Single selection: after [h_select], of the rows that have
    data exactly the row under the cursor is drawn selected (bold, with
    value [True]); every such row is shown with its data as its name and
    without highlight, and no exception is raised. *)
Theorem h_select_selects_the_cursor_row
    (values : list pyvalue) (w : SelectOne.t) (l : SelectOneLine.line)
    (i : Z) (item : pyvalue) :
  py_getitem values i = Some item ->
  SelectOneLine._print_line values (SelectOne.h_select w) l i
  = (None,
     SelectOneLine.Line (VBool (i =? SelectOne.cursor_line w)%Z) false
       (i =? SelectOne.cursor_line w)%Z item false).
Proof.
  intros Hitem.
  rewrite (print_line_on_a_list values _ l i [VInt (SelectOne.cursor_line w)])
    by done.
  rewrite Hitem. simpl. by rewrite orb_false_r.
Qed.

Lemma h_select_selects_the_cursor_row_witness :
  SelectOneLine._print_line [VStr "a"; VStr "b"; VStr "c"]
    (SelectOne.h_select (SelectOne.Make false VNone 1))
    (SelectOneLine.Line VNone false false VNone true) 2
  = (None, SelectOneLine.Line (VBool false) false false (VStr "c") false).
Proof.
  apply (h_select_selects_the_cursor_row [VStr "a"; VStr "b"; VStr "c"]
           (SelectOne.Make false VNone 1)
           (SelectOneLine.Line VNone false false VNone true) 2 (VStr "c")).
  reflexivity.
Defined.

(** X22.  What [update] hands on can be drawn: on the widget that
    [update] passes to [MultiLine.update], [_print_line] raises nothing,
    whatever the value was.  A row number assigned as a scalar selects
    that row, and [None] selects no row. *)
Theorem rows_can_be_drawn_after_update
    (clear : SelectOne.t -> SelectOne.t)
    (MultiLine_update : bool -> SelectOne.t -> SelectOne.t)
    (clear_arg : bool) (w : SelectOne.t) :
  SelectOne.hidden w = false ->
  exists w1,
    SelectOne.update clear MultiLine_update clear_arg w
    = (None, MultiLine_update clear_arg w1) /\
    (forall values l i, (SelectOneLine._print_line values w1 l i).1 = None) /\
    (forall values l i item c,
       SelectOne.value w = VInt c -> py_getitem values i = Some item ->
       SelectOneLine.show_bold (SelectOneLine._print_line values w1 l i).2
       = (i =? c)%Z) /\
    (forall values l i item,
       SelectOne.value w = VNone -> py_getitem values i = Some item ->
       SelectOneLine.show_bold (SelectOneLine._print_line values w1 l i).2
       = false).
Proof.
  intros Hshown. unfold SelectOne.update. rewrite Hshown.
  destruct w as [hid v cur]. simpl in *.
  assert (Hlist : forall sel values l i,
            (SelectOneLine._print_line values (SelectOne.Make hid (VList sel) cur)
               l i).1 = None).
  { intros sel values l i.
    rewrite (print_line_on_a_list values _ l i sel) by done.
    by destruct (py_getitem values i). }
  destruct v; simpl; eexists; (split; [reflexivity|]);
    (split; [by apply Hlist|]); split;
    intros; simplify_eq;
    match goal with
    | H : py_getitem _ _ = Some _ |- _ =>
        erewrite print_line_on_a_list by reflexivity; rewrite H; simpl
    end; by rewrite ?orb_false_r.
Qed.

Lemma rows_can_be_drawn_after_update_witness :
  exists w1,
    SelectOne.update (fun w => w) (fun _ w => w) true
      (SelectOne.Make false (VInt 1) 0)
    = (None, w1) /\
    (forall values l i, (SelectOneLine._print_line values w1 l i).1 = None).
Proof.
  destruct (rows_can_be_drawn_after_update (fun w => w) (fun _ w => w) true
              (SelectOne.Make false (VInt 1) 0) eq_refl)
    as (w1 & Hrun & Hdraw & _).
  exists w1. by split.
Defined.

(** X23.  The test [self.value is not None] in [_print_line] comes too
    late: with the value [None], a boolean, an integer or a string, a row
    that has data raises TypeError at [in], after the row's [value] and
    [hide] have been assigned and before its [highlight] is cleared; a
    row without data is hidden and no exception is raised. *)
Theorem print_line_needs_a_sequence
    (values : list pyvalue) (w : SelectOne.t) (l : SelectOneLine.line) (i : Z) :
  is_scalar (SelectOne.value w) = true ->
  (forall item, py_getitem values i = Some item ->
     SelectOneLine._print_line values w l i
     = (Some TypeError,
        SelectOneLine.Line item false (SelectOneLine.show_bold l)
          (SelectOneLine.name l) (SelectOneLine.highlight l))) /\
  (py_getitem values i = None ->
     SelectOneLine._print_line values w l i
     = (None,
        SelectOneLine.Line (SelectOneLine.value l) true
          (SelectOneLine.show_bold l) VNone false)).
Proof.
  intros Hscalar. unfold SelectOneLine._print_line. split.
  - intros item ->. by destruct (SelectOne.value w).
  - by intros ->.
Qed.

Lemma print_line_needs_a_sequence_witness :
  SelectOneLine._print_line [VStr "a"] (SelectOne.Make false VNone 0)
    (SelectOneLine.Line VNone true false VNone true) 0
  = (Some TypeError, SelectOneLine.Line (VStr "a") false false VNone true).
Proof.
  apply (proj1 (print_line_needs_a_sequence [VStr "a"]
                  (SelectOne.Make false VNone 0)
                  (SelectOneLine.Line VNone true false VNone true) 0
                  eq_refl) (VStr "a")).
  reflexivity.
Defined.

(** X24.  [update] settles the value: when [MultiLine.update] leaves
    [hidden] and [value] alone, a second [update] finds nothing to
    normalize and hands the widget on as it is; so does an [update] after
    [h_select]. *)
Theorem update_settles_the_value
    (clear : SelectOne.t -> SelectOne.t)
    (MultiLine_update : bool -> SelectOne.t -> SelectOne.t)
    (clear_arg : bool) (w : SelectOne.t) :
  SelectOne.hidden w = false ->
  (forall b x, SelectOne.hidden (MultiLine_update b x) = SelectOne.hidden x /\
               SelectOne.value (MultiLine_update b x) = SelectOne.value x) ->
  SelectOne.update clear MultiLine_update clear_arg
    (SelectOne.update clear MultiLine_update clear_arg w).2
  = (None, MultiLine_update clear_arg
             (SelectOne.update clear MultiLine_update clear_arg w).2) /\
  SelectOne.update clear MultiLine_update clear_arg (SelectOne.h_select w)
  = (None, MultiLine_update clear_arg (SelectOne.h_select w)).
Proof.
  intros Hshown Hmu. split.
  - assert (Hfirst : exists w1,
              SelectOne.update clear MultiLine_update clear_arg w
              = (None, MultiLine_update clear_arg w1) /\
              SelectOne.hidden w1 = false /\
              has_append (SelectOne.value w1) = true).
    { unfold SelectOne.update. rewrite Hshown.
      destruct w as [hid v cur]. simpl in *.
      destruct v; simpl; eexists; by split_and!. }
    destruct Hfirst as (w1 & -> & Hhid & Hval). simpl.
    unfold SelectOne.update.
    destruct (Hmu clear_arg w1) as [-> ->].
    by rewrite Hhid, Hval.
  - unfold SelectOne.update, SelectOne.h_select. simpl. by rewrite Hshown.
Qed.

Lemma update_settles_the_value_witness :
  SelectOne.update (fun w => w) (fun _ w => w) true
    (SelectOne.update (fun w => w) (fun _ w => w) true
       (SelectOne.Make false (VStr "x") 0)).2
  = (None, SelectOne.Make false (VList [VStr "x"]) 0).
Proof.
  apply (update_settles_the_value (fun w => w) (fun _ w => w) true
           (SelectOne.Make false (VStr "x") 0)); done.
Defined.
